(** * GovChat-NL policy scanner: a shallow embedding and its properties

    The development follows the repository's own layout:

    - [Number]: the arithmetic of JavaScript numbers on integers;
    - [Pagination]: the page-number strip of the search results
      (the Svelte pagination component, [getPageNumbers]);
    - [PolicyApi]: the response handling of [src/lib/apis/policy.ts];
    - [PolicySearchStore] and [PolicyDocumentsStore]: the two Svelte stores;
    - [RobustScraper] and [GemeentebladScraper]: the scraper code of the
      architecture document; [MySourcePlugin]: the plugin of the guide
      "Adding new scrapers", with its discovery loop;
    - [DeduplicationGate] and [ScanJobs]: the parts of the pipeline whose
      implementation is not among the sources, modelled from the
      specification of the pipeline. *)

From Stdlib Require Import ZArith Lia Sorted DecimalString DecimalPos.
From stdpp Require Import base option list gmap strings pretty.

Local Open Scope Z_scope.
Set Warnings "-register-all".

(* ===================================================================== *)
(** ** JavaScript numbers that hold integers *)
(* ===================================================================== *)

Module Number.

Definition MAX_SAFE_INTEGER : Z := 2 ^ 53 - 1.

(** The double nearest to the integer [n], a tie going to the even
    mantissa (magnitudes below [2 ^ 1024]): up to [2 ^ 53] every integer is
    a double, beyond it the doubles are the multiples of a power of two. *)
Definition round (n : Z) : Z :=
  if Z.abs n <=? 2 ^ 53 then n
  else
    let ulp := 2 ^ (Z.log2 (Z.abs n) - 52) in
    let q := n / ulp in
    let r := n mod ulp in
    if 2 * r <? ulp then q * ulp
    else if ulp <? 2 * r then (q + 1) * ulp
    else if Z.even q then q * ulp else (q + 1) * ulp.

(** [x + y] and [x - y] on such numbers. *)
Definition add (x y : Z) : Z := round (x + y).
Definition sub (x y : Z) : Z := round (x - y).

Example round_tie_down : round (2 ^ 53 + 1) = 2 ^ 53.
Proof. reflexivity. Qed.

Example round_tie_up : round (2 ^ 53 + 3) = 2 ^ 53 + 4.
Proof. reflexivity. Qed.

Example round_negative : round (- 2 ^ 53 - 1) = - 2 ^ 53.
Proof. reflexivity. Qed.

Lemma round_exact (n : Z) : - 2 ^ 53 <= n <= 2 ^ 53 -> round n = n.
Proof.
  intros Hn. unfold round.
  destruct (Z.leb_spec (Z.abs n) (2 ^ 53)); [reflexivity | lia].
Qed.

Lemma add_exact (x y : Z) : - 2 ^ 53 <= x + y <= 2 ^ 53 -> add x y = x + y.
Proof. apply round_exact. Qed.

Lemma sub_exact (x y : Z) : - 2 ^ 53 <= x - y <= 2 ^ 53 -> sub x y = x - y.
Proof. apply round_exact. Qed.

End Number.

(* ===================================================================== *)
(** ** Pagination component: [getPageNumbers] *)
(* ===================================================================== *)

Module Pagination.

(** An entry of the returned array [(number | string)[]]: the only string
    the function ever stores is ['...']. *)
Inductive page_entry : Type :=
| PageNumber (n : Z)
| Ellipsis.

#[global] Instance page_entry_eq_dec : EqDecision page_entry.
Proof. solve_decision. Defined.

Definition delta : Z := 2.

(** [for (let i = lo; i <= hi; i++) range.push(i)], from [i] on with
    [range] as pushed so far; [None] when [fuel] iterations did not leave
    the loop. *)
Fixpoint for_loop (fuel : nat) (i hi : Z) (range : list Z) : option (list Z) :=
  match fuel with
  | O => None
  | S fuel' =>
      if i <=? hi then for_loop fuel' (Number.add i 1) hi (range ++ [i])
      else Some range
  end.

Definition getPageNumbers (fuel : nat) (current total : Z) : option (list page_entry) :=
  match for_loop fuel (Z.max 2 (Number.sub current delta))
          (Z.min (Number.sub total 1) (Number.add current delta)) [] with
  | None => None
  | Some range =>
      let range0 := PageNumber <$> range in
      (* range.unshift('...') *)
      let range1 :=
        if Number.sub current delta >? 2 then Ellipsis :: range0 else range0 in
      (* range.push('...') *)
      let range2 :=
        if Number.add current delta <? Number.sub total 1
        then range1 ++ [Ellipsis] else range1 in
      (* range.unshift(1) *)
      let range3 := PageNumber 1 :: range2 in
      (* if (total > 1) range.push(total) *)
      Some (if total >? 1 then range3 ++ [PageNumber total] else range3)
  end.

(** The closed form of the loop and of the strip while the arithmetic is
    exact. *)
Definition for_range (lo hi : Z) : list Z := seqZ lo (hi + 1 - lo).

Definition exact_strip (current total : Z) : list page_entry :=
  let range0 :=
    PageNumber <$> for_range (Z.max 2 (current - delta))
                             (Z.min (total - 1) (current + delta)) in
  let range1 := if current - delta >? 2 then Ellipsis :: range0 else range0 in
  let range2 := if current + delta <? total - 1 then range1 ++ [Ellipsis] else range1 in
  let range3 := PageNumber 1 :: range2 in
  if total >? 1 then range3 ++ [PageNumber total] else range3.

(** The numeric entries of a strip, in order. *)
Definition page_numbers (l : list page_entry) : list Z :=
  omap (fun e => match e with PageNumber n => Some n | Ellipsis => None end) l.

(** [gaps_ok prev dots l]: reading [l] from left to right after the number
    [prev] (and after a ['...'] when [dots] holds), the numbers increase
    strictly, no ['...'] is first, last or doubled, and the two numbers
    around a ['...'] are not neighbours. *)
Fixpoint gaps_ok (prev : Z) (dots : bool) (l : list page_entry) : Prop :=
  match l with
  | [] => dots = false
  | PageNumber n :: r =>
      (if dots then prev + 1 < n else prev < n) /\ gaps_ok n false r
  | Ellipsis :: r => dots = false /\ gaps_ok prev true r
  end.

Example getPageNumbers_1_1 : getPageNumbers 6 1 1 = Some [PageNumber 1].
Proof. reflexivity. Qed.

Example getPageNumbers_5_10 :
  getPageNumbers 6 5 10 =
  Some [PageNumber 1; Ellipsis; PageNumber 3; PageNumber 4; PageNumber 5;
        PageNumber 6; PageNumber 7; Ellipsis; PageNumber 10].
Proof. reflexivity. Qed.

Example getPageNumbers_4_7 :
  getPageNumbers 6 4 7 =
  Some [PageNumber 1; PageNumber 2; PageNumber 3; PageNumber 4; PageNumber 5;
        PageNumber 6; PageNumber 7].
Proof. reflexivity. Qed.

(** *** The loop while the arithmetic is exact *)

Lemma for_loop_exact (fuel : nat) :
  forall lo hi range,
    - 2 ^ 53 <= lo -> hi < 2 ^ 53 ->
    (Z.to_nat (hi + 1 - lo) < fuel)%nat ->
    for_loop fuel lo hi range = Some (range ++ for_range lo hi).
Proof.
  induction fuel as [|fuel IH]; intros lo hi range Hlo Hhi Hfuel; [lia|].
  simpl. unfold for_range. destruct (Z.leb_spec lo hi) as [Hle|Hgt].
  - rewrite Number.add_exact by lia.
    rewrite IH by lia. unfold for_range.
    rewrite (seqZ_cons lo) by lia. rewrite <- app_assoc. simpl.
    do 3 f_equal. f_equal; lia.
  - rewrite seqZ_nil by lia. by rewrite app_nil_r.
Qed.

(** Within the safe integers the call returns, and returns the closed
    form. *)
Lemma getPageNumbers_exact (fuel : nat) (current total : Z) :
  1 <= current <= total -> total <= Number.MAX_SAFE_INTEGER ->
  (6 <= fuel)%nat ->
  getPageNumbers fuel current total = Some (exact_strip current total).
Proof.
  unfold Number.MAX_SAFE_INTEGER. intros Hc Ht Hfuel.
  assert (Hsub : Number.sub current delta = current - delta)
    by (apply Number.sub_exact; unfold delta; lia).
  assert (Hone : Number.sub total 1 = total - 1)
    by (apply Number.sub_exact; lia).
  assert (Hadd : Z.min (total - 1) (Number.add current delta)
                 = Z.min (total - 1) (current + delta)
                 /\ (Number.add current delta <? total - 1)
                    = (current + delta <? total - 1)).
  { destruct (Z_le_gt_dec (current + delta) (2 ^ 53)) as [Hle|Hgt].
    - rewrite Number.add_exact by (unfold delta in *; lia). auto.
    - assert (current = 2 ^ 53 - 1) as -> by (unfold delta in *; lia).
      change (Number.add (2 ^ 53 - 1) delta) with (2 ^ 53).
      split; [unfold delta; lia|].
      destruct (Z.ltb_spec (2 ^ 53) (total - 1)),
        (Z.ltb_spec (2 ^ 53 - 1 + delta) (total - 1)); unfold delta in *; lia. }
  destruct Hadd as [Hmin Htest].
  unfold getPageNumbers, exact_strip.
  rewrite Hone, Hmin, Htest, Hsub.
  rewrite for_loop_exact by (unfold delta; lia).
  reflexivity.
Qed.

(** *** Auxiliary facts on [gaps_ok] *)

Lemma gaps_ok_mono (l : list page_entry) :
  forall p q d, p <= q -> gaps_ok q d l -> gaps_ok p d l.
Proof.
  induction l as [|[n|] r IH]; simpl; intros p q d Hpq H.
  - exact H.
  - destruct H as [H1 H2]. split; [destruct d; lia | exact H2].
  - destruct H as [H1 H2]. split; [exact H1 | eapply IH; eauto].
Qed.

Lemma gaps_ok_seq (n : nat) :
  forall lo prev tl,
    prev < lo ->
    gaps_ok (lo + Z.of_nat n - 1) false tl ->
    gaps_ok prev false ((PageNumber <$> seqZ lo (Z.of_nat n)) ++ tl).
Proof.
  induction n as [|n IH]; intros lo prev tl Hlt Htl.
  - simpl. apply gaps_ok_mono with (q := lo + 0 - 1); [lia | exact Htl].
  - rewrite seqZ_cons by lia. simpl. split; [exact Hlt|].
    replace (Z.pred (Z.of_nat (S n))) with (Z.of_nat n) by lia.
    apply IH; [lia|].
    replace (Z.succ lo + Z.of_nat n - 1) with (lo + Z.of_nat (S n) - 1) by lia.
    exact Htl.
Qed.

Lemma gaps_ok_for_range (lo hi prev : Z) (tl : list page_entry) :
  prev < lo ->
  gaps_ok (Z.max (lo - 1) hi) false tl ->
  gaps_ok prev false ((PageNumber <$> for_range lo hi) ++ tl).
Proof.
  intros Hlt Htl. unfold for_range.
  destruct (Z_le_gt_dec lo hi) as [Hle|Hgt].
  - replace (hi + 1 - lo) with (Z.of_nat (Z.to_nat (hi + 1 - lo))) by lia.
    apply gaps_ok_seq; [exact Hlt|].
    replace (lo + Z.of_nat (Z.to_nat (hi + 1 - lo)) - 1) with (Z.max (lo - 1) hi) by lia.
    exact Htl.
  - rewrite seqZ_nil by lia. simpl.
    apply gaps_ok_mono with (q := Z.max (lo - 1) hi); [lia | exact Htl].
Qed.

Lemma gaps_ok_dots_for_range (lo hi prev : Z) (tl : list page_entry) :
  prev + 1 < lo -> lo <= hi ->
  gaps_ok hi false tl ->
  gaps_ok prev false (Ellipsis :: (PageNumber <$> for_range lo hi) ++ tl).
Proof.
  intros Hlt Hle Htl. unfold for_range.
  rewrite seqZ_cons by lia. simpl. split; [reflexivity|]. split; [exact Hlt|].
  replace (Z.pred (hi + 1 - lo)) with (hi + 1 - Z.succ lo) by lia.
  apply (gaps_ok_for_range (Z.succ lo) hi lo tl); [lia|].
  replace (Z.max (Z.succ lo - 1) hi) with hi by lia. exact Htl.
Qed.

Lemma gaps_ok_sorted (l : list page_entry) :
  forall p d, gaps_ok p d l ->
    Forall (Z.lt p) (page_numbers l) /\ StronglySorted Z.lt (page_numbers l).
Proof.
  induction l as [|[n|] r IH]; simpl; intros p d H.
  - split; constructor.
  - destruct H as [H1 H2]. destruct (IH _ _ H2) as [Hall Hs].
    assert (Hpn : p < n) by (destruct d; lia).
    split.
    + constructor; [exact Hpn|].
      eapply Forall_impl; [exact Hall | simpl; intros; lia].
    + constructor; assumption.
  - destruct H as [_ H]. exact (IH _ _ H).
Qed.

Lemma StronglySorted_lt_NoDup (xs : list Z) : StronglySorted Z.lt xs -> NoDup xs.
Proof.
  induction 1 as [|x xs Hs IH Hall]; constructor; [|exact IH].
  intros Hin. rewrite Forall_forall in Hall. specialize (Hall _ Hin). lia.
Qed.

Lemma gaps_ok_ellipsis (l1 : list page_entry) :
  forall l2 p d,
    gaps_ok p d (l1 ++ Ellipsis :: l2) ->
    exists a b, last (PageNumber p :: l1) = Some (PageNumber a)
                /\ head l2 = Some (PageNumber b)
                /\ a + 1 < b.
Proof.
  induction l1 as [|x l1 IH]; intros l2 p d H.
  - simpl in H. destruct H as [_ H].
    destruct l2 as [|[b|] l2]; simpl in H.
    + discriminate.
    + exists p, b. destruct H as [H _]. split; [reflexivity|]. split; [reflexivity | lia].
    + destruct H as [H _]. discriminate.
  - destruct x as [n|]; simpl in H.
    + destruct H as [_ H]. destruct (IH _ _ _ H) as (a & b & Ha & Hb & Hab).
      exists a, b. repeat split; assumption.
    + destruct H as [_ H].
      destruct l1 as [|y l1]; [simpl in H; destruct H; discriminate|].
      destruct (IH _ _ _ H) as (a & b & Ha & Hb & Hab).
      exists a, b. repeat split; assumption.
Qed.

(** The three tests of the strip, with the combinations that
    [1 <= current <= total] excludes already closed. *)
Ltac strip_cases current total :=
  rewrite !Z.gtb_ltb;
  destruct (Z.ltb_spec 2 (current - 2));
  destruct (Z.ltb_spec (current + 2) (total - 1));
  destruct (Z.ltb_spec 1 total); try lia.

(** The strip after its leading [1] is well spaced. *)
Lemma exact_strip_shape (current total : Z) :
  1 <= current <= total ->
  exists rest, exact_strip current total = PageNumber 1 :: rest
               /\ gaps_ok 1 false rest.
Proof.
  intros Hc. unfold exact_strip, delta.
  strip_cases current total;
    eexists; (split; [simpl; reflexivity|]).
  - rewrite <- !app_assoc.
    apply gaps_ok_dots_for_range; [lia | lia |].
    simpl. repeat split; lia.
  - apply gaps_ok_dots_for_range; [lia | lia |].
    simpl. repeat split; lia.
  - rewrite <- !app_assoc.
    apply gaps_ok_for_range; [lia|].
    simpl. repeat split; lia.
  - apply gaps_ok_for_range; [lia|].
    simpl. repeat split; lia.
  - replace (PageNumber <$> for_range (Z.max 2 (current - 2)) (Z.min (total - 1) (current + 2)))
      with ((PageNumber <$> for_range (Z.max 2 (current - 2)) (Z.min (total - 1) (current + 2))) ++ [])
      by apply app_nil_r.
    apply gaps_ok_for_range; [lia|]. reflexivity.
Qed.

Lemma exact_strip_elem (current total n : Z) :
  1 <= current <= total ->
  PageNumber n ∈ exact_strip current total -> 1 <= n <= total.
Proof.
  intros Hc. unfold exact_strip, delta, for_range.
  strip_cases current total;
    rewrite ?elem_of_app, ?elem_of_cons, ?elem_of_app, ?elem_of_cons,
      ?list_elem_of_fmap, ?elem_of_nil;
    intros Hin;
    repeat match goal with
      | H : _ \/ _ |- _ => destruct H
      | H : _ ∈ _ <$> _ |- _ => apply list_elem_of_fmap in H
      | H : exists _, _ |- _ => destruct H as (? & ? & ?%elem_of_seqZ)
      | H : PageNumber _ = PageNumber _ |- _ => injection H as ->
      | H : PageNumber _ = Ellipsis |- _ => discriminate H
      | H : False |- _ => destruct H
      end; lia.
Qed.

(** C10 (as stated) fails on the code: 2 ^ 53 and 2 ^ 53 + 2 are numbers
    with [1 <= currentPage <= totalPages], and there [i++] stops advancing
    at 2 ^ 53, which the loop bound never lets it pass: the call does not
    return. *)
Lemma getPageNumbers_not_returning :
  1 <= 2 ^ 53 <= 2 ^ 53 + 2
  /\ Number.round (2 ^ 53) = 2 ^ 53
  /\ Number.round (2 ^ 53 + 2) = 2 ^ 53 + 2
  /\ forall fuel, getPageNumbers fuel (2 ^ 53) (2 ^ 53 + 2) = None.
Proof.
  split; [lia|]. split; [reflexivity|]. split; [reflexivity|].
  assert (Hstuck : forall fuel range, for_loop fuel (2 ^ 53) (2 ^ 53) range = None).
  { induction fuel as [|fuel IH]; intros range; [reflexivity|].
    change (for_loop (S fuel) (2 ^ 53) (2 ^ 53) range)
      with (for_loop fuel (2 ^ 53) (2 ^ 53) (range ++ [2 ^ 53])).
    apply IH. }
  intros fuel. unfold getPageNumbers.
  change (Z.max 2 (Number.sub (2 ^ 53) delta)) with (2 ^ 53 - 2).
  change (Z.min (Number.sub (2 ^ 53 + 2) 1) (Number.add (2 ^ 53) delta))
    with (2 ^ 53).
  destruct fuel as [|[|fuel]]; try reflexivity.
  change (for_loop (S (S fuel)) (2 ^ 53 - 2) (2 ^ 53) [])
    with (for_loop fuel (2 ^ 53) (2 ^ 53) (([] ++ [2 ^ 53 - 2]) ++ [2 ^ 53 - 1])).
  by rewrite Hstuck.
Qed.

(** C10 (amended). For integers with
    [1 <= currentPage <= totalPages <= MAX_SAFE_INTEGER] the call
    [getPageNumbers currentPage totalPages] returns, and the numbers of the
    strip it returns are pairwise distinct, strictly increasing and all
    within [1, totalPages]; the strip starts with [1], ends with
    [totalPages] whenever [totalPages > 1], and every ['...'] sits between
    two page numbers that are not adjacent. *)
Theorem getPageNumbers_well_formed (fuel : nat) (currentPage totalPages : Z) :
  1 <= currentPage <= totalPages ->
  totalPages <= Number.MAX_SAFE_INTEGER ->
  (6 <= fuel)%nat ->
  exists pages,
    getPageNumbers fuel currentPage totalPages = Some pages
    /\ NoDup (page_numbers pages)
    /\ StronglySorted Z.lt (page_numbers pages)
    /\ Forall (fun n => 1 <= n <= totalPages) (page_numbers pages)
    /\ head pages = Some (PageNumber 1)
    /\ (totalPages > 1 -> last pages = Some (PageNumber totalPages))
    /\ (forall before after,
          pages = before ++ Ellipsis :: after ->
          exists a b, last before = Some (PageNumber a)
                      /\ head after = Some (PageNumber b)
                      /\ a + 1 < b).
Proof.
  intros Hc Hsafe Hfuel.
  exists (exact_strip currentPage totalPages).
  split; [by apply getPageNumbers_exact|].
  set (pages := exact_strip currentPage totalPages).
  destruct (exact_strip_shape currentPage totalPages Hc) as (rest & Heq & Hgaps).
  assert (Hsorted : StronglySorted Z.lt (page_numbers pages)).
  { subst pages. rewrite Heq.
    destruct (gaps_ok_sorted rest 1 false Hgaps) as [Hall Hs].
    change (page_numbers (PageNumber 1 :: rest)) with (1 :: page_numbers rest).
    constructor; assumption. }
  split; [apply StronglySorted_lt_NoDup, Hsorted|].
  split; [exact Hsorted|].
  split.
  { apply Forall_forall. intros n Hn.
    apply list_elem_of_omap in Hn. destruct Hn as ([m|] & Hin & Hm); [|discriminate].
    injection Hm as ->.
    eapply exact_strip_elem; eauto. }
  split; [subst pages; rewrite Heq; reflexivity|].
  split.
  { intros HT. subst pages. unfold exact_strip.
    rewrite Z.gtb_ltb. destruct (Z.ltb_spec 1 totalPages) as [_|?]; [|lia].
    apply last_snoc. }
  intros before after Hsplit. subst pages. rewrite Heq in Hsplit.
  destruct before as [|x before]; [discriminate|].
  injection Hsplit as <- ->.
  destruct (gaps_ok_ellipsis before after 1 false Hgaps) as (a & b & Ha & Hb & Hab).
  exists a, b. auto.
Qed.

(** The statement instantiated at page 5 of 10. *)
Lemma getPageNumbers_well_formed_witness :
  exists pages,
    getPageNumbers 6 5 10 = Some pages
    /\ NoDup (page_numbers pages)
    /\ head pages = Some (PageNumber 1)
    /\ last pages = Some (PageNumber 10).
Proof.
  destruct (getPageNumbers_well_formed 6 5 10) as (pages & Hp & Hnd & _ & _ & Hh & Hl & _);
    [lia | unfold Number.MAX_SAFE_INTEGER; lia | lia |].
  exists pages. split; [exact Hp|]. split; [exact Hnd|]. split; [exact Hh|].
  apply Hl. lia.
Defined.

End Pagination.

(* ===================================================================== *)
(** ** Text helpers shared by the client and the scraper *)
(* ===================================================================== *)

Module Text.

(** [needle in haystack] *)
Fixpoint contains (needle haystack : string) : bool :=
  String.prefix needle haystack
  || match haystack with
     | EmptyString => false
     | String _ rest => contains needle rest
     end.

Definition lower_ascii (c : Ascii.ascii) : Ascii.ascii :=
  let n := Ascii.N_of_ascii c in
  if ((65 <=? n) && (n <=? 90))%N then Ascii.ascii_of_N (n + 32) else c.

(** [s.lower()] on the ASCII letters, which are the only ones that can
    produce the letters of the word looked for. *)
Fixpoint lower (s : string) : string :=
  match s with
  | EmptyString => EmptyString
  | String c rest => String (lower_ascii c) (lower rest)
  end.

Example lower_contains : contains "captcha" (lower "/Sorry/CAPTCHA?next=1") = true.
Proof. reflexivity. Qed.

End Text.

(* ===================================================================== *)
(** ** API client: [handleResponse] of [src/lib/apis/policy.ts] *)
(* ===================================================================== *)

Module PolicyApi.

(** A value produced by [response.json()].  Numbers are kept integral; the
    only operation performed on a number here is the truthiness test. *)
Inductive json : Type :=
| JNull
| JBool (b : bool)
| JNumber (n : Z)
| JString (s : string)
| JArray (items : list json)
| JObject (fields : list (string * json)).

(** The part of a fetch [Response] that is in scope of [handleResponse].
    [json_body = None] stands for a body that is not JSON, on which
    [response.json()] rejects. [url] and [redirected] are carried by every
    [Response], and are what a CAPTCHA-redirect test would look at. *)
Record Response : Type := mkResponse {
  status : Z;
  statusText : string;
  url : string;
  redirected : bool;
  json_body : option json
}.

(** [response.ok]: the status is in the range 200-299. *)
Definition ok (response : Response) : bool :=
  (200 <=? status response) && (status response <=? 299).

(** What an [await handleResponse(response)] can end with. *)
Inductive thrown : Type :=
| Error (message_arg : json)   (* [new Error(x)]: the message is [String(x)] *)
| TypeError_null_property      (* reading [.detail] of [null] *)
| SyntaxError_json.            (* the rejection of [response.json()] *)

Inductive outcome : Type :=
| Returns (payload : json)
| Throws (e : thrown).

(** JavaScript truthiness of a JSON value. *)
Definition truthy (v : json) : bool :=
  match v with
  | JNull => false
  | JBool b => b
  | JNumber n => negb (n =? 0)
  | JString s => negb (String.eqb s EmptyString)
  | JArray _ | JObject _ => true
  end.

(** Own property of a parsed object; a repeated key keeps its last value. *)
Fixpoint get_field (k : string) (fields : list (string * json)) : option json :=
  match fields with
  | [] => None
  | (k', v) :: rest =>
      match get_field k rest with
      | Some v' => Some v'
      | None => if String.eqb k k' then Some v else None
      end
  end.

(** [error.detail]: [inl] when the access itself throws (on [null]),
    [inr None] for [undefined]. *)
Definition detail_of (error : json) : unit + option json :=
  match error with
  | JNull => inl tt
  | JObject fields => inr (get_field "detail" fields)
  | JBool _ | JNumber _ | JString _ | JArray _ => inr None
  end.

(** [`HTTP ${response.status}: ${response.statusText}`] *)
Definition http_message (response : Response) : string :=
  "HTTP " +:+ pretty (status response) +:+ ": " +:+ statusText response.

Definition handleResponse (response : Response) : outcome :=
  if negb (ok response) then
    (* response.json().catch(() => ({ detail: response.statusText })) *)
    let error :=
      match json_body response with
      | Some v => v
      | None => JObject [("detail", JString (statusText response))]
      end in
    match detail_of error with
    | inl _ => Throws TypeError_null_property
    | inr (Some d) =>
        if truthy d then Throws (Error d)
        else Throws (Error (JString (http_message response)))
    | inr None => Throws (Error (JString (http_message response)))
    end
  else
    match json_body response with
    | Some v => Returns v
    | None => Throws SyntaxError_json
    end.

Definition throws (o : outcome) : bool :=
  match o with Throws _ => true | Returns _ => false end.

(** The "blocked" heuristics of the fetch layer: 403, 429, or a redirect to
    a CAPTCHA page. *)
Definition blocked (response : Response) : bool :=
  (status response =? 403) || (status response =? 429)
  || (redirected response && Text.contains "captcha" (Text.lower (url response))).

Definition forbidden : Response :=
  mkResponse 403 "Forbidden" "https://govchat.example/api/v1/policy/search" false
    (Some (JObject [("detail", JString "Request failed")])).

Definition server_error : Response :=
  mkResponse 500 "Internal Server Error" "https://govchat.example/api/v1/policy/search" false
    (Some (JObject [("detail", JString "Request failed")])).

Definition no_content : Response :=
  mkResponse 204 "No Content" "https://govchat.example/api/v1/policy/documents/d1/favorite"
    false None.

(** The two halves of the fetch-layer contract, as the specification words
    them, read on [handleResponse]. *)
Definition raises_exactly_on_non_2xx : Prop :=
  forall response, throws (handleResponse response) = negb (ok response).

Definition error_distinguishes_blocked : Prop :=
  exists classify : thrown -> bool,
    forall response e,
      handleResponse response = Throws e -> classify e = blocked response.

Example handleResponse_forbidden :
  handleResponse forbidden = Throws (Error (JString "Request failed")).
Proof. reflexivity. Qed.

Example handleResponse_plain_502 :
  handleResponse (mkResponse 502 "Bad Gateway" EmptyString false (Some (JObject []))) =
  Throws (Error (JString "HTTP 502: Bad Gateway")).
Proof. vm_compute. reflexivity. Qed.

Example handleResponse_no_content : handleResponse no_content = Throws SyntaxError_json.
Proof. reflexivity. Qed.

Lemma handleResponse_non_2xx (response : Response) :
  ok response = false -> throws (handleResponse response) = true.
Proof.
  intros Hok. unfold handleResponse. rewrite Hok. simpl.
  destruct (detail_of _) as [|[d|]]; [reflexivity | | reflexivity].
  destruct (truthy d); reflexivity.
Qed.

Lemma handleResponse_2xx (response : Response) :
  ok response = true ->
  handleResponse response =
  match json_body response with
  | Some v => Returns v
  | None => Throws SyntaxError_json
  end.
Proof. intros Hok. unfold handleResponse. rewrite Hok. reflexivity. Qed.

Lemma handleResponse_detail (response : Response) fields d :
  ok response = false ->
  json_body response = Some (JObject fields) ->
  get_field "detail" fields = Some d ->
  truthy d = true ->
  handleResponse response = Throws (Error d).
Proof.
  intros Hok Hbody Hd Ht. unfold handleResponse.
  rewrite Hok, Hbody. simpl. rewrite Hd, Ht. reflexivity.
Qed.

(** C7 (as stated) fails on the code: a 2xx response without a JSON body
    (204 No Content) makes [handleResponse] throw, and a 403 and a 500 that
    carry the same [detail] raise one and the same error, so nothing in the
    raised error tells a blocked response from a generic failure. *)
Lemma handleResponse_not_classifying :
  ~ raises_exactly_on_non_2xx /\ ~ error_distinguishes_blocked.
Proof.
  split.
  - intros H. specialize (H no_content). discriminate H.
  - intros [classify H].
    pose proof (H forbidden _ eq_refl) as H1.
    pose proof (H server_error _ eq_refl) as H2.
    rewrite H1 in H2. discriminate H2.
Qed.

(** C7 (amended). [handleResponse] throws for every response whose status is
    not 2xx; for a 2xx response it returns the parsed JSON body, and the
    rejection of [response.json()] propagates when the body is not JSON.
    The raised error carries no classification: whenever the JSON body has a
    truthy [detail], the error is built from that detail alone, whatever the
    status, the status text and the URL (blocked or not). *)
Theorem handleResponse_contract (response : Response) :
  (ok response = false -> throws (handleResponse response) = true)
  /\ (ok response = true ->
      handleResponse response =
      match json_body response with
      | Some v => Returns v
      | None => Throws SyntaxError_json
      end)
  /\ (forall fields d,
        ok response = false ->
        json_body response = Some (JObject fields) ->
        get_field "detail" fields = Some d ->
        truthy d = true ->
        handleResponse response = Throws (Error d)).
Proof.
  split; [apply handleResponse_non_2xx|].
  split; [apply handleResponse_2xx|].
  intros fields d. apply handleResponse_detail.
Qed.

(** The contract at a 403 with a detail, and at a 200 with a payload. *)
Lemma handleResponse_contract_witness :
  (ok forbidden = false /\ throws (handleResponse forbidden) = true)
  /\ (ok (mkResponse 200 "OK" EmptyString false (Some (JArray []))) = true
      /\ handleResponse (mkResponse 200 "OK" EmptyString false (Some (JArray []))) =
         Returns (JArray []))
  /\ (ok forbidden = false
      /\ json_body forbidden = Some (JObject [("detail", JString "Request failed")])
      /\ truthy (JString "Request failed") = true
      /\ handleResponse forbidden = Throws (Error (JString "Request failed"))).
Proof.
  split; [split; [reflexivity|]|split; [split; [reflexivity|]|]].
  - apply (proj1 (handleResponse_contract forbidden)). reflexivity.
  - apply (proj1 (proj2 (handleResponse_contract
                           (mkResponse 200 "OK" EmptyString false (Some (JArray [])))))).
    reflexivity.
  - split; [reflexivity|]. split; [reflexivity|]. split; [reflexivity|].
    apply (proj2 (proj2 (handleResponse_contract forbidden))
             [("detail", JString "Request failed")]); reflexivity.
Defined.

End PolicyApi.

(* ===================================================================== *)
(** ** Search store: [src/lib/stores/policySearch.ts] *)
(* ===================================================================== *)

Module PolicySearchStore.

Record SearchFilters : Type := mkSearchFilters {
  sources : option (list string);
  municipalities : option (list string);
  categories : option (list string);
  date_from : option string;
  date_to : option string;
  document_type : option string
}.

(** The object literal [{}]. *)
Definition no_filters : SearchFilters :=
  mkSearchFilters None None None None None None.

Record SearchFacet : Type := mkSearchFacet {
  value : string;
  count : Z
}.

Record SearchFacets : Type := mkSearchFacets {
  facets_sources : list SearchFacet;
  facets_municipalities : list SearchFacet;
  facets_categories : list SearchFacet
}.

(** [Date | string | null] *)
Inductive date_value : Type :=
| DateObject (epoch_ms : Z)
| DateString (s : string)
| DateNull.

Record PolicyDocument : Type := mkPolicyDocument {
  id : string;
  source_id : string;
  external_id : option string;
  title : string;
  description : option string;
  content_hash : string;
  document_url : string;
  doc_document_type : option string;
  municipality : option string;
  publication_date : option date_value;
  effective_date : option date_value;
  file_size : option Z;
  page_count : option Z;
  language : option string;
  doc_status : string;
  metadata : option (list (string * PolicyApi.json));
  created_at : Z;
  updated_at : Z;
  indexed_at : option Z
}.

Record SearchState : Type := mkSearchState {
  query : string;
  filters : SearchFilters;
  results : list PolicyDocument;
  total : Z;
  page : Z;
  loading : bool;
  error : option string;
  facets : SearchFacets;
  took_ms : Z
}.

Definition initialState : SearchState :=
  {| query := EmptyString; filters := no_filters; results := []; total := 0; page := 1;
     loading := false; error := None;
     facets := mkSearchFacets [] [] [];
     took_ms := 0 |}.

(** [SearchRequest] and [SearchResponse] of the API module. *)
Record SearchRequest : Type := mkSearchRequest {
  req_query : string;
  req_filters : SearchFilters;
  req_page : Z;
  req_limit : Z;
  req_sort : string
}.

Record SearchResponse : Type := mkSearchResponse {
  resp_results : list PolicyDocument;
  resp_total : Z;
  resp_facets : SearchFacets;
  resp_page : Z;
  resp_took_ms : Z
}.

(** A caught value, as far as the stores look at it: [error.message],
    which is [None] when the caught value has no such property. *)
Record caught : Type := mkCaught { message : option string }.

(** How the awaited API promise settles. *)
Inductive settled (A : Type) : Type :=
| Fulfilled (v : A)
| Rejected (e : caught).
Arguments Fulfilled {A} v.
Arguments Rejected {A} e.

(** [error.message || fallback] *)
Definition message_or (e : caught) (fallback : string) : string :=
  match message e with
  | Some m => if String.eqb m EmptyString then fallback else m
  | None => fallback
  end.

(** The three updater functions handed to [update] by [search]. *)
Definition search_started (query_ : string) (filters_ : SearchFilters) (page_ : Z)
    (state : SearchState) : SearchState :=
  {| query := query_; filters := filters_; results := results state;
     total := total state; page := page_; loading := true; error := None;
     facets := facets state; took_ms := took_ms state |}.

Definition search_succeeded (response : SearchResponse) (state : SearchState) : SearchState :=
  {| query := query state; filters := filters state;
     results := resp_results response; total := resp_total response;
     page := page state; loading := false; error := error state;
     facets := resp_facets response; took_ms := resp_took_ms response |}.

Definition search_failed (e : caught) (state : SearchState) : SearchState :=
  {| query := query state; filters := filters state; results := results state;
     total := total state; page := page state; loading := false;
     error := Some (message_or e "Search failed");
     facets := facets state; took_ms := took_ms state |}.

(** [search(query, filters = {}, page = 1, sort = 'relevance')], run against
    the API [searchPolicyDocuments] with no other store operation in
    between: the state after the first [update], and the final state. *)
Definition search (searchPolicyDocuments : SearchRequest -> settled SearchResponse)
    (query_ : string) (filters_ : option SearchFilters) (page_ : option Z)
    (sort : option string) (state : SearchState) : SearchState * SearchState :=
  let filters_ := default no_filters filters_ in
  let page_ := default 1 page_ in
  let sort := default "relevance" sort in
  let pending := search_started query_ filters_ page_ state in
  match searchPolicyDocuments (mkSearchRequest query_ filters_ page_ 20 sort) with
  | Fulfilled response => (pending, search_succeeded response pending)
  | Rejected e => (pending, search_failed e pending)
  end.

Definition reset (state : SearchState) : SearchState := initialState.

Definition setFilters (filters_ : SearchFilters) (state : SearchState) : SearchState :=
  {| query := query state; filters := filters_; results := results state;
     total := total state; page := page state; loading := loading state;
     error := error state; facets := facets state; took_ms := took_ms state |}.

(** C8. Error atomicity of the search store: when the API call of
    [search(query, filters, page, sort)] fails, the resulting state keeps
    [results], [total], [facets] and [took_ms] of the prior state, has
    [loading = false] and [error] set to the failure message
    ([error.message || 'Search failed']), and has [query], [filters] and
    [page] set to the new arguments. *)
Theorem search_failure_atomic
    (api : SearchRequest -> settled SearchResponse)
    (q : string) (filters_arg : option SearchFilters) (page_arg : option Z)
    (sort_arg : option string) (prior : SearchState) (e : caught) :
  let f := default no_filters filters_arg in
  let p := default 1 page_arg in
  api (mkSearchRequest q f p 20 (default "relevance" sort_arg)) = Rejected e ->
  let final := snd (search api q filters_arg page_arg sort_arg prior) in
  results final = results prior
  /\ total final = total prior
  /\ facets final = facets prior
  /\ took_ms final = took_ms prior
  /\ loading final = false
  /\ error final = Some (message_or e "Search failed")
  /\ (forall m, message e = Some m -> m <> EmptyString -> error final = Some m)
  /\ query final = q
  /\ filters final = f
  /\ page final = p.
Proof.
  intros f p Hfail final. subst final f p. unfold search. simpl. rewrite Hfail. simpl.
  repeat split.
  intros m Hm Hne. unfold message_or. rewrite Hm.
  destruct (String.eqb_spec m EmptyString); [contradiction | reflexivity].
Qed.

(** A search for "parkeren" on page 2 that fails with "HTTP 500: ". *)
Lemma search_failure_atomic_witness :
  let api := fun _ : SearchRequest =>
               @Rejected SearchResponse (mkCaught (Some "HTTP 500: ")) in
  let prior := search_succeeded
                 (mkSearchResponse [] 41 (mkSearchFacets [mkSearchFacet "dso" 41] [] []) 1 12)
                 initialState in
  let final := snd (search api "parkeren" (Some no_filters) (Some 2) (Some "date_desc") prior) in
  api (mkSearchRequest "parkeren" no_filters 2 20 "date_desc")
    = Rejected (mkCaught (Some "HTTP 500: "))
  /\ total final = 41 /\ loading final = false
  /\ error final = Some "HTTP 500: " /\ page final = 2.
Proof.
  intros api prior final.
  pose proof (search_failure_atomic api "parkeren" (Some no_filters) (Some 2)
                (Some "date_desc") prior (mkCaught (Some "HTTP 500: ")) eq_refl) as H.
  split; [reflexivity|].
  destruct H as (_ & Ht & _ & _ & Hl & He & _ & _ & _ & Hp).
  split; [exact Ht|]. split; [exact Hl|]. split; [exact He | exact Hp].
Defined.

End PolicySearchStore.

(* ===================================================================== *)
(** ** Documents store: favorites and the document cache *)
(* ===================================================================== *)

Module PolicyDocumentsStore.

Import PolicySearchStore (PolicyDocument, caught, settled, Fulfilled, Rejected,
                          message_or, mkCaught).

(** [documents: Record<string, PolicyDocument>] is a finite map keyed by the
    document id; [favorites: string[]] keeps order and repetitions. *)
Record DocumentsState : Type := mkDocumentsState {
  documents : gmap string PolicyDocument;
  favorites : list string;
  loading : bool;
  error : option string
}.

Definition initialState : DocumentsState :=
  {| documents := ∅; favorites := []; loading := false; error := None |}.

(** [loadDocument]: the final state and how the returned promise settles. *)
Definition loadDocument (getPolicyDocument : string -> settled PolicyDocument)
    (documentId : string) (state : DocumentsState)
    : DocumentsState * settled PolicyDocument :=
  let pending :=
    {| documents := documents state; favorites := favorites state;
       loading := true; error := None |} in
  match getPolicyDocument documentId with
  | Fulfilled document =>
      ({| documents := <[documentId := document]> (documents pending);
          favorites := favorites pending;
          loading := false; error := error pending |},
       Fulfilled document)
  | Rejected e =>
      ({| documents := documents pending; favorites := favorites pending;
          loading := false;
          error := Some (message_or e "Failed to load document") |},
       Rejected e)
  end.

(** [addFavorite(documentId, notes?)]: the store is updated only after the
    API call is fulfilled; a rejection is thrown again with no update. *)
Definition addFavorite (api_addFavorite : string -> option string -> settled unit)
    (documentId : string) (notes : option string) (state : DocumentsState)
    : DocumentsState * settled unit :=
  match api_addFavorite documentId notes with
  | Fulfilled _ =>
      ({| documents := documents state;
          favorites := favorites state ++ [documentId];
          loading := loading state; error := error state |},
       Fulfilled tt)
  | Rejected e => (state, Rejected e)
  end.

(** [removeFavorite(documentId)] *)
Definition removeFavorite (api_removeFavorite : string -> settled unit)
    (documentId : string) (state : DocumentsState)
    : DocumentsState * settled unit :=
  match api_removeFavorite documentId with
  | Fulfilled _ =>
      ({| documents := documents state;
          favorites := filter (fun id => id <> documentId) (favorites state);
          loading := loading state; error := error state |},
       Fulfilled tt)
  | Rejected e => (state, Rejected e)
  end.

Definition cacheDocument (document : PolicyDocument) (state : DocumentsState)
    : DocumentsState :=
  {| documents := <[PolicySearchStore.id document := document]> (documents state);
     favorites := favorites state; loading := loading state; error := error state |}.

Definition clearCache (state : DocumentsState) : DocumentsState := initialState.

Definition always_ok {A : Type} (_ : A) : settled unit := Fulfilled tt.

Example addFavorite_twice :
  favorites (fst (addFavorite (fun _ _ => Fulfilled tt) "doc-1" None
              (fst (addFavorite (fun _ _ => Fulfilled tt) "doc-1" None initialState))))
  = ["doc-1"; "doc-1"].
Proof. reflexivity. Qed.

Example removeFavorite_all_copies :
  favorites (fst (removeFavorite always_ok "doc-1"
              (mkDocumentsState ∅ ["doc-1"; "doc-2"; "doc-1"] false None)))
  = ["doc-2"].
Proof. reflexivity. Qed.

Lemma removeFavorite_fulfilled api documentId state state' :
  removeFavorite api documentId state = (state', Fulfilled tt) ->
  state' = {| documents := documents state;
              favorites := filter (fun id => id <> documentId) (favorites state);
              loading := loading state; error := error state |}.
Proof.
  unfold removeFavorite. destruct (api documentId); intros H; inversion H; reflexivity.
Qed.

Lemma addFavorite_fulfilled api documentId notes state state' :
  addFavorite api documentId notes state = (state', Fulfilled tt) ->
  state' = {| documents := documents state;
              favorites := favorites state ++ [documentId];
              loading := loading state; error := error state |}.
Proof.
  unfold addFavorite. destruct (api documentId notes); intros H; inversion H; reflexivity.
Qed.

(** C9. Frame property of the favorites operations: after a successful
    [removeFavorite(id)] no occurrence of [id] remains in [favorites], and
    [documents], [loading] and [error] are unchanged; after a successful
    [addFavorite(id)] the list is the previous one with [id] appended (a
    second [addFavorite] of the same id therefore yields a duplicate), and
    [documents] is unchanged. *)
Theorem favorites_frame :
  (forall api documentId state state',
      removeFavorite api documentId state = (state', Fulfilled tt) ->
      (documentId ∉ favorites state')
      /\ documents state' = documents state
      /\ loading state' = loading state
      /\ error state' = error state)
  /\ (forall api documentId notes state state',
      addFavorite api documentId notes state = (state', Fulfilled tt) ->
      favorites state' = favorites state ++ [documentId]
      /\ documents state' = documents state)
  /\ (forall api documentId notes notes' state state' state'',
      addFavorite api documentId notes state = (state', Fulfilled tt) ->
      addFavorite api documentId notes' state' = (state'', Fulfilled tt) ->
      favorites state'' = favorites state ++ [documentId; documentId]
      /\ documents state'' = documents state).
Proof.
  split; [|split].
  - intros api documentId state state' H.
    apply removeFavorite_fulfilled in H. subst state'. simpl.
    split; [|auto].
    rewrite list_elem_of_filter. intros [Hne _]. apply Hne. reflexivity.
  - intros api documentId notes state state' H.
    apply addFavorite_fulfilled in H. subst state'. simpl. auto.
  - intros api documentId notes notes' state state' state'' H1 H2.
    apply addFavorite_fulfilled in H1. apply addFavorite_fulfilled in H2.
    subst state'' state'. simpl. rewrite <- app_assoc. auto.
Qed.

(** The frame property on a store that caches nothing and has three
    favorites, two of them the same document. *)
Lemma favorites_frame_witness :
  let state := mkDocumentsState ∅ ["doc-1"; "doc-2"; "doc-1"] false None in
  let removed := fst (removeFavorite always_ok "doc-1" state) in
  let added := fst (addFavorite (fun _ _ => Fulfilled tt) "doc-2" None state) in
  let added2 := fst (addFavorite (fun _ _ => Fulfilled tt) "doc-2" (Some "again") added) in
  removeFavorite always_ok "doc-1" state = (removed, Fulfilled tt)
  /\ ("doc-1" ∉ favorites removed)
  /\ favorites added = ["doc-1"; "doc-2"; "doc-1"; "doc-2"]
  /\ favorites added2 = ["doc-1"; "doc-2"; "doc-1"; "doc-2"; "doc-2"].
Proof.
  intros state removed added added2.
  destruct favorites_frame as (Hrm & Hadd & Hadd2).
  split; [reflexivity|].
  split; [exact (proj1 (Hrm always_ok "doc-1" state removed eq_refl))|].
  split.
  - exact (proj1 (Hadd (fun _ _ => Fulfilled tt) "doc-2" None state added eq_refl)).
  - exact (proj1 (Hadd2 (fun _ _ => Fulfilled tt) "doc-2" None (Some "again")
                    state added added2 eq_refl eq_refl)).
Defined.

End PolicyDocumentsStore.

(* ===================================================================== *)
(** ** Anti-bot retry loop: [RobustScraper] of the architecture document *)
(* ===================================================================== *)

Module RobustScraper.

(** What [scrape_with_retry] reads of an aiohttp response. *)
Record response : Type := mkResponse {
  status : Z;
  url_path : string
}.

(** How one [await self._fetch(url)] ends: with a response (of any status,
    nothing is raised for a status), with an [aiohttp.ClientError], or with
    an exception of another class. *)
Inductive fetch_outcome : Type :=
| Responded (r : response)
| ClientError (reason : string)
| OtherException (reason : string).

Inductive scrape_result : Type :=
| Returned (r : response)
| ReturnedNone               (* the [for] loop ran out: the function falls off its end *)
| Raised (reason : string).

(** What [_handle_blocking(attempt)] does. *)
Inductive blocking_action : Type :=
| RotateUserAgent
| AddHumanHeaders
| Sleep (seconds : Z).

(** The calls made while the loop runs, in order. *)
Inductive event : Type :=
| Fetch (attempt : nat)
| HandleBlocking (attempt : nat) (action : blocking_action)
| BackoffWait (attempt : nat).

Definition _is_blocked (r : response) : bool :=
  if status r =? 403 then true
  else if status r =? 429 then true
  else if Text.contains "captcha" (Text.lower (url_path r)) then true
  else false.

Definition _handle_blocking (attempt : nat) : blocking_action :=
  match attempt with
  | O => RotateUserAgent
  | S O => AddHumanHeaders
  | _ => Sleep (2 ^ Z.of_nat attempt * 60)
  end.

(** The body of [for attempt in range(max_retries)], over the attempts that
    are still to come. [_fetch attempt] is the outcome of the call made in
    iteration [attempt]. *)
Fixpoint attempts_loop (_fetch : nat -> fetch_outcome) (max_retries : Z)
    (attempts : list nat) : scrape_result * list event :=
  match attempts with
  | [] => (ReturnedNone, [])
  | attempt :: rest =>
      match _fetch attempt with
      | Responded r =>
          if _is_blocked r then
            let '(result, events) := attempts_loop _fetch max_retries rest in
            (result, Fetch attempt :: HandleBlocking attempt (_handle_blocking attempt) :: events)
          else (Returned r, [Fetch attempt])
      | ClientError e =>
          if Z.of_nat attempt =? max_retries - 1 then (Raised e, [Fetch attempt])
          else
            let '(result, events) := attempts_loop _fetch max_retries rest in
            (result, Fetch attempt :: BackoffWait attempt :: events)
      | OtherException e => (Raised e, [Fetch attempt])
      end
  end.

Definition scrape_with_retry (_fetch : nat -> fetch_outcome) (max_retries : Z)
    : scrape_result * list event :=
  attempts_loop _fetch max_retries (seq 0 (Z.to_nat max_retries)).

(** [max_retries: int = 3] *)
Definition default_max_retries : Z := 3.

Fixpoint count_fetches (events : list event) : nat :=
  match events with
  | [] => O
  | Fetch _ :: rest => S (count_fetches rest)
  | _ :: rest => count_fetches rest
  end.

(** Number of attempts made. *)
Definition attempts_made (run : scrape_result * list event) : nat :=
  count_fetches (snd run).

(** The classification of the retry controller, read on a first outcome:
    transient are network errors, 429 and 5xx; fatal are 401 and 403. *)
Definition transient (o : fetch_outcome) : bool :=
  match o with
  | ClientError _ => true
  | Responded r => (status r =? 429) || ((500 <=? status r) && (status r <=? 599))
  | OtherException _ => false
  end.

Definition fatal (o : fetch_outcome) : bool :=
  match o with
  | Responded r => (status r =? 401) || (status r =? 403)
  | _ => false
  end.

(** The retry policy as the specification words it: a transient first
    failure is retried within the bound, a fatal one ends the call after the
    first attempt. *)
Definition transient_is_retried : Prop :=
  forall _fetch max_retries,
    2 <= max_retries -> transient (_fetch O) = true ->
    (2 <= attempts_made (scrape_with_retry _fetch max_retries) <= Z.to_nat max_retries)%nat.

Definition fatal_is_immediate : Prop :=
  forall _fetch max_retries,
    1 <= max_retries -> fatal (_fetch O) = true ->
    attempts_made (scrape_with_retry _fetch max_retries) = 1%nat.

Definition always (r : response) : nat -> fetch_outcome := fun _ => Responded r.

Example always_forbidden :
  scrape_with_retry (always (mkResponse 403 "/search")) default_max_retries =
  (ReturnedNone,
   [Fetch 0%nat; HandleBlocking 0%nat RotateUserAgent;
    Fetch 1%nat; HandleBlocking 1%nat AddHumanHeaders;
    Fetch 2%nat; HandleBlocking 2%nat (Sleep 240)]).
Proof. reflexivity. Qed.

Example unavailable_once :
  scrape_with_retry (always (mkResponse 503 "/search")) default_max_retries =
  (Returned (mkResponse 503 "/search"), [Fetch 0%nat]).
Proof. reflexivity. Qed.

Example timeout_then_ok :
  scrape_with_retry
    (fun attempt => match attempt with
                    | O => ClientError "timeout"
                    | _ => Responded (mkResponse 200 "/search")
                    end) default_max_retries =
  (Returned (mkResponse 200 "/search"), [Fetch 0%nat; BackoffWait 0%nat; Fetch 1%nat]).
Proof. reflexivity. Qed.

(** An outcome after which the loop goes on to the next attempt (when it is
    not a network error on the last one). *)
Definition retryable (o : fetch_outcome) : bool :=
  match o with
  | Responded r => _is_blocked r
  | ClientError _ => true
  | OtherException _ => false
  end.

(** *** The loop, one iteration at a time *)

Section Loop.

Variable _fetch : nat -> fetch_outcome.
Variable max_retries : Z.

(** Attempts that end blocked or in a network error, none of them the last
    one allowed, each cost one fetch and leave the rest of the loop as it
    is. *)
Lemma attempts_loop_skip (k : nat) :
  forall first n,
    (forall j, (first <= j < first + k)%nat -> retryable (_fetch j) = true) ->
    Z.of_nat (first + k) < max_retries ->
    fst (attempts_loop _fetch max_retries (seq first (k + n)))
    = fst (attempts_loop _fetch max_retries (seq (first + k) n))
    /\ count_fetches (snd (attempts_loop _fetch max_retries (seq first (k + n))))
       = (k + count_fetches (snd (attempts_loop _fetch max_retries (seq (first + k) n))))%nat.
Proof.
  induction k as [|k IH]; intros first n Hpre Hmax.
  - replace (first + 0)%nat with first by lia. auto.
  - destruct (IH (S first) n) as [Hres Hcount]; [intros j Hj; apply Hpre; lia | lia |].
    replace (first + S k)%nat with (S first + k)%nat by lia.
    change (seq first (S k + n)) with (first :: seq (S first) (k + n)).
    cbn [attempts_loop].
    pose proof (Hpre first ltac:(lia)) as Hfirst.
    destruct (_fetch first) as [r|e|e]; simpl in Hfirst; [|clear Hfirst|discriminate].
    + rewrite Hfirst.
      destruct (attempts_loop _fetch max_retries (seq (S first) (k + n))) as [res ev].
      simpl in *. rewrite Hcount. auto.
    + destruct (Z.eqb_spec (Z.of_nat first) (max_retries - 1)) as [|_]; [lia|].
      destruct (attempts_loop _fetch max_retries (seq (S first) (k + n))) as [res ev].
      simpl in *. rewrite Hcount. auto.
Qed.

(** The events of the skipped attempts are followed by those of the rest. *)
Lemma attempts_loop_skip_last (k : nat) :
  forall first n,
    (forall j, (first <= j < first + k)%nat -> retryable (_fetch j) = true) ->
    Z.of_nat (first + k) < max_retries ->
    snd (attempts_loop _fetch max_retries (seq (first + k) n)) <> [] ->
    last (snd (attempts_loop _fetch max_retries (seq first (k + n))))
    = last (snd (attempts_loop _fetch max_retries (seq (first + k) n))).
Proof.
  induction k as [|k IH]; intros first n Hpre Hmax Hne.
  - replace (first + 0)%nat with first by lia. reflexivity.
  - replace (first + S k)%nat with (S first + k)%nat in * by lia.
    specialize (IH (S first) n ltac:(intros j Hj; apply Hpre; lia) ltac:(lia) Hne).
    change (seq first (S k + n)) with (first :: seq (S first) (k + n)).
    cbn [attempts_loop].
    pose proof (Hpre first ltac:(lia)) as Hfirst.
    assert (Hrest : snd (attempts_loop _fetch max_retries (seq (S first) (k + n))) <> []).
    { intros Hnil. rewrite Hnil in IH. symmetry in IH.
      apply last_None in IH. contradiction. }
    destruct (_fetch first) as [r|e|e]; simpl in Hfirst; [|clear Hfirst|discriminate].
    + rewrite Hfirst.
      destruct (attempts_loop _fetch max_retries (seq (S first) (k + n))) as [res ev].
      simpl in *. rewrite <- IH.
      destruct ev as [|x ev]; [contradiction | reflexivity].
    + destruct (Z.eqb_spec (Z.of_nat first) (max_retries - 1)) as [|_]; [lia|].
      destruct (attempts_loop _fetch max_retries (seq (S first) (k + n))) as [res ev].
      simpl in *. rewrite <- IH.
      destruct ev as [|x ev]; [contradiction | reflexivity].
Qed.

(** The run, split at attempt [k]. *)
Lemma scrape_with_retry_at (k : nat) :
  (k < Z.to_nat max_retries)%nat ->
  (forall j, (j < k)%nat -> retryable (_fetch j) = true) ->
  fst (scrape_with_retry _fetch max_retries)
  = fst (attempts_loop _fetch max_retries (seq k (Z.to_nat max_retries - k)))
  /\ attempts_made (scrape_with_retry _fetch max_retries)
     = (k + count_fetches
              (snd (attempts_loop _fetch max_retries (seq k (Z.to_nat max_retries - k)))))%nat.
Proof.
  intros Hk Hpre. unfold attempts_made, scrape_with_retry.
  replace (Z.to_nat max_retries) with (k + (Z.to_nat max_retries - k))%nat at 1 3 by lia.
  apply (attempts_loop_skip k O); [intros j Hj; apply Hpre; lia | lia].
Qed.

Lemma attempts_loop_bound (attempts : list nat) :
  (attempts_made (attempts_loop _fetch max_retries attempts) <= length attempts)%nat.
Proof.
  unfold attempts_made.
  induction attempts as [|attempt rest IH]; simpl; [lia|].
  destruct (_fetch attempt) as [r|e|e]; simpl; try lia.
  - destruct (_is_blocked r); simpl; [|lia].
    destruct (attempts_loop _fetch max_retries rest) as [result events].
    simpl in *. lia.
  - destruct (Z.of_nat attempt =? max_retries - 1); simpl; [lia|].
    destruct (attempts_loop _fetch max_retries rest) as [result events].
    simpl in *. lia.
Qed.

Lemma attempts_loop_fetches (attempt : nat) (rest : list nat) :
  (1 <= attempts_made (attempts_loop _fetch max_retries (attempt :: rest)))%nat.
Proof.
  unfold attempts_made. simpl.
  destruct (_fetch attempt) as [r|e|e]; simpl; try lia.
  - destruct (_is_blocked r); simpl; [|lia].
    destruct (attempts_loop _fetch max_retries rest); simpl; lia.
  - destruct (Z.of_nat attempt =? max_retries - 1); simpl; [lia|].
    destruct (attempts_loop _fetch max_retries rest); simpl; lia.
Qed.

Lemma attempts_loop_all_blocked (attempts : list nat) :
  (forall attempt, exists r, _fetch attempt = Responded r /\ _is_blocked r = true) ->
  fst (attempts_loop _fetch max_retries attempts) = ReturnedNone
  /\ attempts_made (attempts_loop _fetch max_retries attempts) = length attempts.
Proof.
  intros Hall. unfold attempts_made.
  induction attempts as [|attempt rest IH]; simpl; [auto|].
  destruct (Hall attempt) as (r & -> & ->).
  destruct (attempts_loop _fetch max_retries rest) as [result events].
  simpl in *. destruct IH as [-> ->]. auto.
Qed.

Lemma attempts_loop_all_errors (n : nat) :
  forall first,
    (forall attempt, exists e, _fetch attempt = ClientError e) ->
    Z.of_nat (first + n) = max_retries ->
    (1 <= n)%nat ->
    exists e, _fetch (first + n - 1)%nat = ClientError e
              /\ fst (attempts_loop _fetch max_retries (seq first n)) = Raised e
              /\ attempts_made (attempts_loop _fetch max_retries (seq first n)) = n.
Proof.
  unfold attempts_made.
  induction n as [|n IH]; intros first Hall Hmax Hn; [lia|].
  simpl. destruct (Hall first) as [e He]. rewrite He.
  destruct (Z.eqb_spec (Z.of_nat first) (max_retries - 1)) as [Hlast|Hmore].
  - assert (n = O) by lia. subst n.
    exists e. replace (first + 1 - 1)%nat with first by lia. auto.
  - destruct (IH (S first) Hall) as (e' & He' & Hres & Hcount); [lia | lia |].
    exists e'. replace (first + S n - 1)%nat with (S first + n - 1)%nat by lia.
    destruct (attempts_loop _fetch max_retries (seq (S first) n)) as [result events].
    simpl in *. subst. auto.
Qed.

Lemma scrape_with_retry_first :
  1 <= max_retries ->
  scrape_with_retry _fetch max_retries =
  attempts_loop _fetch max_retries (O :: seq 1 (Z.to_nat max_retries - 1)).
Proof.
  intros Hmax. unfold scrape_with_retry.
  replace (Z.to_nat max_retries) with (S (Z.to_nat max_retries - 1)) at 1 by lia.
  reflexivity.
Qed.

Lemma scrape_with_retry_last (k : nat) (r : response) :
  (k < Z.to_nat max_retries)%nat ->
  (forall j, (j < k)%nat -> retryable (_fetch j) = true) ->
  _fetch k = Responded r -> _is_blocked r = false ->
  last (snd (scrape_with_retry _fetch max_retries)) = Some (Fetch k).
Proof.
  intros Hk Hpre Hr Hnb. unfold scrape_with_retry.
  replace (Z.to_nat max_retries) with (k + S (Z.to_nat max_retries - S k))%nat by lia.
  rewrite (attempts_loop_skip_last k O).
  - cbn [Nat.add seq attempts_loop]. rewrite Hr, Hnb. reflexivity.
  - intros j Hj. apply Hpre. lia.
  - lia.
  - cbn [Nat.add seq attempts_loop]. rewrite Hr, Hnb. discriminate.
Qed.

End Loop.

(** C3 (as stated) fails on the code: a 403 is treated as "blocked" and
    tried again until the attempts run out, so three attempts are made where
    the claim has one; and a 503 response is handed back after the first
    attempt, not retried. *)
Lemma retry_classes_differ : ~ fatal_is_immediate /\ ~ transient_is_retried.
Proof.
  split.
  - intros H.
    specialize (H (always (mkResponse 403 "/search")) 3 ltac:(lia) eq_refl).
    discriminate H.
  - intros H.
    specialize (H (always (mkResponse 503 "/search")) 3 ltac:(lia) eq_refl).
    vm_compute in H. lia.
Qed.

(** C3 (amended). [scrape_with_retry] makes at most [max_retries] attempts
    (3 by default). A response that is not "blocked" -- a 401 and a 5xx
    included -- is returned after the attempt that received it, with no
    retry, and an exception that is not an [aiohttp.ClientError] propagates
    at once, whichever attempt it is. A network error ([ClientError]) and a
    blocked response (403, 429, CAPTCHA path) are tried again while attempts
    remain; when the attempts run out that way, all [max_retries] were made
    and the call raises the network error of the last one or, if that was
    blocked, returns nothing; so when every attempt ends in a network error
    the last one is raised, and when every attempt is blocked the call
    returns nothing, in both cases after exactly [max_retries] attempts. *)
Theorem scrape_with_retry_policy (_fetch : nat -> fetch_outcome) (max_retries : Z) :
  let run := scrape_with_retry _fetch max_retries in
  let retried_before (k : nat) :=
    forall j, (j < k)%nat -> retryable (_fetch j) = true in
  (attempts_made run <= Z.to_nat max_retries)%nat
  /\ (forall k r, (k < Z.to_nat max_retries)%nat -> retried_before k ->
        _fetch k = Responded r -> _is_blocked r = false ->
        fst run = Returned r /\ attempts_made run = S k
        /\ last (snd run) = Some (Fetch k))
  /\ (forall k e, (k < Z.to_nat max_retries)%nat -> retried_before k ->
        _fetch k = OtherException e ->
        fst run = Raised e /\ attempts_made run = S k)
  /\ (forall k, (S k < Z.to_nat max_retries)%nat -> retried_before (S k) ->
        (S (S k) <= attempts_made run)%nat)
  /\ (1 <= max_retries -> retried_before (Z.to_nat max_retries - 1)%nat ->
      attempts_made run = Z.to_nat max_retries
      /\ (forall e, _fetch (Z.to_nat max_retries - 1)%nat = ClientError e ->
            fst run = Raised e)
      /\ (forall r, _fetch (Z.to_nat max_retries - 1)%nat = Responded r ->
            _is_blocked r = true -> fst run = ReturnedNone))
  /\ (1 <= max_retries ->
      (forall attempt, exists e, _fetch attempt = ClientError e) ->
      exists e, _fetch (Z.to_nat max_retries - 1)%nat = ClientError e
                /\ fst run = Raised e
                /\ attempts_made run = Z.to_nat max_retries)
  /\ ((forall attempt, exists r, _fetch attempt = Responded r /\ _is_blocked r = true) ->
      fst run = ReturnedNone /\ attempts_made run = Z.to_nat max_retries).
Proof.
  intros run retried_before. subst run retried_before.
  split.
  { unfold scrape_with_retry.
    pose proof (attempts_loop_bound _fetch max_retries (seq 0 (Z.to_nat max_retries))) as H.
    rewrite length_seq in H. exact H. }
  split.
  { intros k r Hk Hpre Hr Hnb.
    destruct (scrape_with_retry_at _fetch max_retries k Hk Hpre) as [Hres Hcount].
    rewrite Hres, Hcount.
    replace (Z.to_nat max_retries - k)%nat with (S (Z.to_nat max_retries - S k)) by lia.
    cbn [seq attempts_loop]. rewrite Hr, Hnb. cbn [fst snd count_fetches].
    split; [reflexivity|]. split; [lia|].
    apply (scrape_with_retry_last _fetch max_retries k r Hk Hpre Hr Hnb). }
  split.
  { intros k e Hk Hpre He.
    destruct (scrape_with_retry_at _fetch max_retries k Hk Hpre) as [Hres Hcount].
    rewrite Hres, Hcount.
    replace (Z.to_nat max_retries - k)%nat with (S (Z.to_nat max_retries - S k)) by lia.
    cbn [seq attempts_loop]. rewrite He. cbn [fst snd count_fetches].
    split; [reflexivity | lia]. }
  split.
  { intros k Hk Hpre.
    destruct (scrape_with_retry_at _fetch max_retries (S k) Hk Hpre) as [_ Hcount].
    rewrite Hcount.
    replace (Z.to_nat max_retries - S k)%nat
      with (S (Z.to_nat max_retries - S (S k))) by lia.
    pose proof (attempts_loop_fetches _fetch max_retries (S k)
                  (seq (S (S k)) (Z.to_nat max_retries - S (S k)))) as Hnext.
    unfold attempts_made in Hnext. cbn [seq] in *. lia. }
  split.
  { intros Hmax Hpre.
    destruct (scrape_with_retry_at _fetch max_retries (Z.to_nat max_retries - 1)
                ltac:(lia) Hpre) as [Hres Hcount].
    rewrite Hres, Hcount.
    replace (Z.to_nat max_retries - (Z.to_nat max_retries - 1))%nat with 1%nat by lia.
    cbn [seq attempts_loop].
    destruct (_fetch (Z.to_nat max_retries - 1)%nat) as [r|e|e].
    - destruct (_is_blocked r) eqn:Hb; cbn [fst snd count_fetches];
        (split; [lia|]); (split; [intros ? [=] | intros ? [= <-] ?]);
        [reflexivity | congruence].
    - destruct (Z.eqb_spec (Z.of_nat (Z.to_nat max_retries - 1)) (max_retries - 1))
        as [_|Hne]; [|lia].
      cbn [fst snd count_fetches].
      split; [lia|]. split; [intros ? [= <-]; reflexivity | intros ? [=]].
    - cbn [fst snd count_fetches].
      split; [lia|]. split; intros ? [=]. }
  split.
  { intros Hmax Hall. unfold scrape_with_retry.
    destruct (attempts_loop_all_errors _fetch max_retries (Z.to_nat max_retries) O Hall)
      as (e & He & Hres & Hcount); [lia | lia |].
    exists e. simpl in He. auto. }
  intros Hall. unfold scrape_with_retry.
  destruct (attempts_loop_all_blocked _fetch max_retries (seq 0 (Z.to_nat max_retries)) Hall)
    as [Hres Hcount].
  rewrite length_seq in Hcount. auto.
Qed.

(** A source that answers 429, then times out, then answers 200; and one
    that answers 401: with the default of three attempts. *)
Definition limited_timeout_ok (attempt : nat) : fetch_outcome :=
  match attempt with
  | O => Responded (mkResponse 429 "/search")
  | S O => ClientError "timeout"
  | _ => Responded (mkResponse 200 "/search")
  end.

Lemma scrape_with_retry_policy_witness :
  let denied := always (mkResponse 401 "/search") in
  (fst (scrape_with_retry limited_timeout_ok default_max_retries)
   = Returned (mkResponse 200 "/search")
   /\ attempts_made (scrape_with_retry limited_timeout_ok default_max_retries) = 3%nat)
  /\ (fst (scrape_with_retry denied default_max_retries)
      = Returned (mkResponse 401 "/search")
      /\ attempts_made (scrape_with_retry denied default_max_retries) = 1%nat).
Proof.
  intros denied.
  destruct (scrape_with_retry_policy limited_timeout_ok default_max_retries)
    as (_ & Hreturn & _).
  destruct (scrape_with_retry_policy denied default_max_retries)
    as (_ & Hdenied & _).
  split.
  - destruct (Hreturn 2%nat (mkResponse 200 "/search")) as (Hres & Hcount & _);
      [unfold default_max_retries; lia | | reflexivity | reflexivity | auto].
    intros [|[|j]] Hj; [reflexivity | reflexivity | lia].
  - destruct (Hdenied O (mkResponse 401 "/search")) as (Hres & Hcount & _);
      [unfold default_max_retries; lia | | reflexivity | reflexivity | auto].
    intros j Hj. lia.
Defined.

End RobustScraper.

(* ===================================================================== *)
(** ** Listing pages as the scraper plugins see them *)
(* ===================================================================== *)

Module Listing.

(** An element returned by [select_one]: its text and its [href]
    attribute, if it has one. *)
Record element : Type := mkElement {
  text : string;
  href : option string
}.

(** One match of the item selector, seen through the configured title, url
    and date selectors ([None]: [select_one] found nothing). *)
Record listing_item : Type := mkItem {
  title_elem : option element;
  url_elem : option element;
  date_elem : option element
}.

Record date : Type := mkDate { year : Z; month : Z; day : Z }.

Record DocumentMetadata : Type := mkDocumentMetadata {
  title : string;
  url : string;
  external_id : string;
  publication_date : option date;
  municipality : option string;
  document_type : string;
  metadata : list (string * string)
}.

Inductive python_exception : Type :=
| KeyError (key : string)
| ValidationError (field : string)   (* pydantic: a required field is missing *)
| Exception (reason : string).

(** A Python call either returns or raises. *)
Inductive result (A : Type) : Type :=
| Return (v : A)
| Raise (e : python_exception).
Arguments Return {A} v.
Arguments Raise {A} e.

End Listing.

(* ===================================================================== *)
(** ** [GemeentebladScraper._parse_search_results] (architecture document) *)
(* ===================================================================== *)

Module GemeentebladScraper.

Import Listing.

(** [DocumentMetadata(...)] of the architecture document, a pydantic model:
    the call validates its keyword arguments, and a field declared without
    a default must be among them.  [metadata: Dict] is such a field; a call
    that leaves the keyword out ([None]) raises [ValidationError]. *)
Definition new_DocumentMetadata (title url external_id : string)
    (publication_date : option date) (municipality : option string)
    (document_type : string) (metadata : option (list (string * string)))
    : result DocumentMetadata :=
  match metadata with
  | Some metadata =>
      Return {| title := title; url := url; external_id := external_id;
                publication_date := publication_date; municipality := municipality;
                document_type := document_type; metadata := metadata |}
  | None => Raise (ValidationError "metadata")
  end.

Section Plugin.

(** [self.config] and the helpers whose code is not shown in the document. *)
Variable base_url : string.
Variable config_municipality : option string.
Variable strip : string -> string.
Variable urljoin : string -> string -> string.
Variable _extract_id : string -> string.
Variable _parse_date : option string -> option date.

(** The [for item in soup.select(...)] loop; [documents] is the list built
    so far. [url_elem['href']] raises [KeyError] on an element without that
    attribute, the constructor is called without [metadata], and nothing in
    the function catches an exception. *)
Fixpoint parse_items (items : list listing_item) (documents : list DocumentMetadata)
    : result (list DocumentMetadata) :=
  match items with
  | [] => Return documents
  | item :: rest =>
      match title_elem item, url_elem item with
      | Some title_el, Some url_el =>
          match href url_el with
          | None => Raise (KeyError "href")
          | Some link =>
              match new_DocumentMetadata (strip (text title_el))
                      (urljoin base_url link) (_extract_id link)
                      (_parse_date (text <$> date_elem item))
                      config_municipality "pdf" None with
              | Return document => parse_items rest (documents ++ [document])
              | Raise e => Raise e
              end
          end
      | _, _ => parse_items rest documents
      end
  end.

Definition _parse_search_results (html : list listing_item)
    : result (list DocumentMetadata) :=
  parse_items html [].

(** An item that passes the guard [if title_elem and url_elem]. *)
Definition complete (item : listing_item) : bool :=
  match title_elem item, url_elem item with
  | Some _, Some _ => true
  | _, _ => false
  end.

(** A complete item whose url element has no [href]. *)
Definition lacks_href (item : listing_item) : bool :=
  match title_elem item, url_elem item with
  | Some _, Some url_el => match href url_el with None => true | Some _ => false end
  | _, _ => false
  end.

(** The exception a complete item ends the loop with. *)
Definition raised_by (item : listing_item) : python_exception :=
  if lacks_href item then KeyError "href" else ValidationError "metadata".

Definition good_item (name link : string) : listing_item :=
  mkItem (Some (mkElement name None)) (Some (mkElement "Download" (Some link))) None.

(** [<a class="document-link">Download</a>]: an anchor without [href]. *)
Definition item_without_href (name : string) : listing_item :=
  mkItem (Some (mkElement name None)) (Some (mkElement "Download" None)) None.

Definition item_without_title (link : string) : listing_item :=
  mkItem None (Some (mkElement "Download" (Some link))) None.

Definition item_without_url (name : string) : listing_item :=
  mkItem (Some (mkElement name None)) None None.

(** The loop ends at the first complete item, with that item's exception;
    without a complete item it returns the list it started with. *)
Lemma parse_items_find (items : list listing_item) :
  forall documents,
    parse_items items documents =
    match List.find complete items with
    | Some item => Raise (raised_by item)
    | None => Return documents
    end.
Proof.
  induction items as [|item rest IH]; intros documents; [reflexivity|].
  simpl. unfold complete at 1.
  destruct (title_elem item) as [title_el|] eqn:Ht,
    (url_elem item) as [url_el|] eqn:Hu; try apply IH.
  unfold raised_by, lacks_href. rewrite Ht, Hu.
  destruct (href url_el); reflexivity.
Qed.

Lemma parse_items_returns (items : list listing_item)
    (documents docs : list DocumentMetadata) :
  parse_items items documents = Return docs -> docs = documents.
Proof.
  rewrite parse_items_find. destruct (List.find complete items); congruence.
Qed.

(** C5. The claim has a candidate that cannot be extracted skipped and the
    page returned; [_parse_search_results] catches nothing.  On the page
    [no title element; anchor without href; complete item] it raises
    [KeyError] at the second item, and on [complete; anchor without href;
    complete] it raises at the first, whose [DocumentMetadata] is built
    without the required [metadata]; only items that lack the title or the
    url element are skipped. *)
Theorem parse_search_results_malformed_item :
  _parse_search_results
    [item_without_title "/doc/1"; item_without_href "Besluit B";
     good_item "Verordening C" "/doc/3"]
  = Raise (KeyError "href")
  /\ _parse_search_results
       [good_item "Verordening A" "/doc/1"; item_without_href "Besluit B";
        good_item "Verordening C" "/doc/3"]
     = Raise (ValidationError "metadata")
  /\ _parse_search_results
       [item_without_title "/doc/1"; item_without_url "Besluit B"]
     = Return [].
Proof. repeat split. Qed.

End Plugin.

End GemeentebladScraper.

(* ===================================================================== *)
(** ** [MySourcePlugin] of the plugin guide: parsing and discovery *)
(* ===================================================================== *)

Module MySourcePlugin.

Import Listing.

(** How [await self._fetch_page(url)] ends for a page of the listing, after
    the retry middleware has done its work: with the page, or by raising. *)
Inductive page_fetch : Type :=
| PageHtml (items : list listing_item)
| PageRaises (e : python_exception).

(** [if max_pages and page > max_pages]: [None] and [0] are both falsy. *)
Definition over_limit (max_pages : option Z) (page : Z) : bool :=
  match max_pages with
  | Some m => negb (m =? 0) && (page >? m)
  | None => false
  end.

(** A concrete source: validators that never raise, and listings made of
    one well-formed item per page. *)
Definition plain_normalize_url (link base : string) : result string :=
  Return (base +:+ link).

Definition plain_hash (u : string) : result string := Return u.

Definition plain_validate_date (s : string) : result (option date) := Return None.

Definition one_item : listing_item :=
  mkItem (Some (mkElement "Verordening" None))
         (Some (mkElement "Download" (Some "/doc/1"))) None.

Definition one_document : DocumentMetadata :=
  {| title := "Verordening"; url := "https://example.com/doc/1";
     external_id := "https://example.com/doc/1"; publication_date := None;
     municipality := None; document_type := "pdf";
     metadata := [("source", "my_source")] |}.

(** Every page has a document. *)
Definition endless_listing (page : Z) : page_fetch := PageHtml [one_item].

(** The fetch of page 2 fails; every other page has a document. *)
Definition broken_listing (page : Z) : page_fetch :=
  if page =? 2 then PageRaises (Exception "HTTP 500: https://example.com/search?page=2")
  else PageHtml [one_item].

Section Plugin.

(** [self.config] and the validators, whose code is not shown in the guide
    and which may raise. *)
Variable base_url : string.
Variable has_date_selector : bool.
Variable strip : string -> string.
Variable normalize_url : string -> string -> result string.
Variable generate_external_id_hash : string -> result string.
Variable validate_date : string -> result (option date).

Definition _parse_item (item : listing_item) : result (option DocumentMetadata) :=
  match title_elem item with
  | None => Return None
  | Some title_el =>
      let title_ := strip (text title_el) in
      if String.eqb title_ EmptyString then Return None
      else
        match url_elem item with
        | None => Return None
        | Some url_el =>
            match href url_el with
            | None => Return None
            | Some link =>
                if String.eqb link EmptyString then Return None
                else
                  match normalize_url link base_url with
                  | Raise e => Raise e
                  | Return url_ =>
                      match generate_external_id_hash url_ with
                      | Raise e => Raise e
                      | Return external_id_ =>
                          let publication_date_ :=
                            if has_date_selector then
                              match date_elem item with
                              | Some date_el =>
                                  match validate_date (strip (text date_el)) with
                                  | Return d => d
                                  | Raise _ => None   (* except Exception: pass *)
                                  end
                              | None => None
                              end
                            else None in
                          Return (Some {| title := title_; url := url_;
                                          external_id := external_id_;
                                          publication_date := publication_date_;
                                          municipality := None;
                                          document_type := "pdf";
                                          metadata := [("source", "my_source")] |})
                      end
                  end
            end
        end
  end.

(** The loop of [_parse_search_results]: the documents appended and the
    exceptions caught and logged, both in page order. *)
Fixpoint parse_items (items : list listing_item)
    : list DocumentMetadata * list python_exception :=
  match items with
  | [] => ([], [])
  | item :: rest =>
      let '(documents, warnings) := parse_items rest in
      match _parse_item item with
      | Return (Some doc) => (doc :: documents, warnings)
      | Return None => (documents, warnings)
      | Raise e => (documents, e :: warnings)
      end
  end.

Definition _parse_search_results (html : list listing_item) : list DocumentMetadata :=
  fst (parse_items html).

Variable listing : Z -> page_fetch.
Variable max_pages : option Z.

(** The documents a page adds to the result; none when its fetch raises. *)
Definition page_documents (page : Z) : list DocumentMetadata :=
  match listing page with
  | PageHtml items => _parse_search_results items
  | PageRaises _ => []
  end.

(** The [while True] loop of [discover_documents], with the pages fetched so
    far; [None] when [fuel] iterations were not enough to leave the loop. *)
Fixpoint discover_loop (fuel : nat) (page : Z) (documents : list DocumentMetadata)
    (fetched : list Z) : option (list DocumentMetadata * list Z) :=
  match fuel with
  | O => None
  | S fuel' =>
      if over_limit max_pages page then Some (documents, fetched)
      else
        match listing page with
        | PageRaises _ => Some (documents, fetched ++ [page])  (* logged; break *)
        | PageHtml items =>
            match _parse_search_results items with
            | [] => Some (documents, fetched ++ [page])
            | page_docs =>
                discover_loop fuel' (page + 1) (documents ++ page_docs) (fetched ++ [page])
            end
        end
  end.

Definition discover_documents (fuel : nat) : option (list DocumentMetadata * list Z) :=
  discover_loop fuel 1 [] [].

(** A page "yields zero items": it was fetched and no document came out. *)
Definition yields_zero (page : Z) : Prop :=
  exists items, listing page = PageHtml items /\ _parse_search_results items = [].

(** The discovery contract as the specification words it: "under the
    precondition that a pageLimit is given or some page yields zero items,
    discover terminates" ... *)
Definition terminates_as_specified : Prop :=
  is_Some max_pages \/ (exists p, 1 <= p /\ yields_zero p) ->
  exists fuel result, discover_documents fuel = Some result.

(** ... and "stops exactly at the first of: the pageLimit being reached, or
    a fetched page yielding zero items". *)
Definition stops_as_specified : Prop :=
  forall fuel docs fetched,
    discover_documents fuel = Some (docs, fetched) ->
    (exists m, max_pages = Some m /\ Z.of_nat (length fetched) = m)
    \/ (exists p, last fetched = Some p /\ yields_zero p).

(** *** Per-item isolation in [_parse_search_results] *)

Lemma parse_items_app (l1 l2 : list listing_item) :
  fst (parse_items (l1 ++ l2)) = fst (parse_items l1) ++ fst (parse_items l2).
Proof.
  induction l1 as [|item rest IH]; [reflexivity|].
  simpl. destruct (parse_items (rest ++ l2)) as [d w], (parse_items rest) as [d1 w1].
  simpl in IH. subst d.
  destruct (_parse_item item) as [[doc|]|e]; reflexivity.
Qed.

(** An item that cannot be extracted (it raises, or lacks a required part)
    is left out, and the page still returns every other candidate. *)
Lemma _parse_search_results_isolates (before after : list listing_item)
    (bad : listing_item) :
  (forall doc, _parse_item bad <> Return (Some doc)) ->
  _parse_search_results (before ++ bad :: after) =
  _parse_search_results before ++ _parse_search_results after.
Proof.
  intros Hbad. unfold _parse_search_results.
  rewrite parse_items_app. f_equal.
  simpl. destruct (parse_items after) as [d w].
  destruct (_parse_item bad) as [[doc|]|e]; [|reflexivity|reflexivity].
  exfalso. exact (Hbad doc eq_refl).
Qed.

(** *** The discovery loop *)

Lemma seqZ_one (page : Z) : seqZ page 1 = [page].
Proof. unfold seqZ. simpl. f_equal. Qed.

Lemma discover_loop_spec (fuel : nat) :
  forall page documents fetched docs' fetched',
    discover_loop fuel page documents fetched = Some (docs', fetched') ->
    exists j : nat,
      (forall p, page <= p < page + Z.of_nat j ->
                 over_limit max_pages p = false /\ page_documents p <> [])
      /\ docs' = documents ++ concat (page_documents <$> seqZ page (Z.of_nat j))
      /\ ((over_limit max_pages (page + Z.of_nat j) = true
           /\ fetched' = fetched ++ seqZ page (Z.of_nat j))
          \/ (over_limit max_pages (page + Z.of_nat j) = false
              /\ page_documents (page + Z.of_nat j) = []
              /\ fetched' = fetched ++ seqZ page (Z.of_nat j + 1))).
Proof.
  induction fuel as [|fuel IH]; intros page documents fetched docs' fetched' H;
    simpl in H; [discriminate|].
  assert (Hstop : forall reason : page_documents page = [],
             over_limit max_pages page = false ->
             Some (documents, fetched ++ [page]) = Some (docs', fetched') ->
             exists j : nat,
               (forall p, page <= p < page + Z.of_nat j ->
                          over_limit max_pages p = false /\ page_documents p <> [])
               /\ docs' = documents ++ concat (page_documents <$> seqZ page (Z.of_nat j))
               /\ ((over_limit max_pages (page + Z.of_nat j) = true
                    /\ fetched' = fetched ++ seqZ page (Z.of_nat j))
                   \/ (over_limit max_pages (page + Z.of_nat j) = false
                       /\ page_documents (page + Z.of_nat j) = []
                       /\ fetched' = fetched ++ seqZ page (Z.of_nat j + 1)))).
  { intros Hempty Hlim Heq. inversion Heq; subst. exists O.
    split; [intros p Hp; lia|].
    split; [simpl; by rewrite app_nil_r|].
    right. simpl. rewrite Z.add_0_r, seqZ_one. auto. }
  destruct (over_limit max_pages page) eqn:Hlim.
  - inversion H; subst. exists O.
    split; [intros p Hp; lia|].
    split; [simpl; by rewrite app_nil_r|].
    left. simpl. rewrite Z.add_0_r, app_nil_r. auto.
  - destruct (listing page) as [items|e] eqn:Hpage.
    + destruct (_parse_search_results items) as [|doc docs] eqn:Hdocs.
      * apply Hstop; [|reflexivity|exact H].
        unfold page_documents. by rewrite Hpage.
      * apply IH in H. destruct H as (j & Hall & Hres & Hend).
        assert (Hhere : page_documents page = doc :: docs).
        { unfold page_documents. by rewrite Hpage. }
        exists (S j).
        replace (page + Z.of_nat (S j)) with (page + 1 + Z.of_nat j) by lia.
        split.
        { intros p Hp. destruct (Z.eq_dec p page) as [->|Hne].
          - rewrite Hhere. split; [exact Hlim | discriminate].
          - apply Hall. lia. }
        rewrite (seqZ_cons page (Z.of_nat (S j))) by lia.
        replace (Z.pred (Z.of_nat (S j))) with (Z.of_nat j) by lia.
        replace (Z.succ page) with (page + 1) by lia.
        split.
        { rewrite fmap_cons. simpl. rewrite Hhere, Hres.
          by rewrite <- app_assoc. }
        destruct Hend as [(Hover & Hf)|(Hin & Hempty & Hf)].
        { left. split; [exact Hover|]. rewrite Hf, <- app_assoc. reflexivity. }
        right. split; [exact Hin|]. split; [exact Hempty|].
        rewrite Hf, <- app_assoc. simpl.
        rewrite (seqZ_cons page (Z.of_nat (S j) + 1)) by lia.
        replace (Z.pred (Z.of_nat (S j) + 1)) with (Z.of_nat j + 1) by lia.
        replace (Z.succ page) with (page + 1) by lia. reflexivity.
    + apply Hstop; [|reflexivity|exact H].
      unfold page_documents. by rewrite Hpage.
Qed.

Lemma discover_loop_terminates (n : nat) :
  forall page documents fetched,
    over_limit max_pages (page + Z.of_nat n) = true
    \/ page_documents (page + Z.of_nat n) = [] ->
    exists result, discover_loop (S n) page documents fetched = Some result.
Proof.
  induction n as [|n IH]; intros page documents fetched Hstop.
  - rewrite Z.add_0_r in Hstop. simpl.
    destruct (over_limit max_pages page); [eauto|].
    destruct Hstop as [Hover|Hempty]; [discriminate|].
    unfold page_documents in Hempty.
    destruct (listing page) as [items|e]; [rewrite Hempty|]; eauto.
  - cbn [discover_loop].
    destruct (over_limit max_pages page); [eauto|].
    destruct (listing page) as [items|e]; [|eauto].
    destruct (_parse_search_results items) as [|doc docs]; [eauto|].
    apply IH. replace (page + 1 + Z.of_nat n) with (page + Z.of_nat (S n)) by lia.
    exact Hstop.
Qed.

(** C6 (amended). [discover_documents] fetches the pages 1, 2, 3, ... in
    order and stops at the first page that exceeds a non-zero [max_pages],
    or yields no document, or whose fetch raises; it returns the documents
    of the pages before that one. Hence, when [max_pages] is given and not
    0, or some page yields no document or fails, the call terminates. *)
Theorem discover_documents_stops :
  (forall fuel docs fetched,
      discover_documents fuel = Some (docs, fetched) ->
      exists k : nat,
        (forall p, 1 <= p <= Z.of_nat k ->
                   over_limit max_pages p = false /\ page_documents p <> [])
        /\ docs = concat (page_documents <$> seqZ 1 (Z.of_nat k))
        /\ ((over_limit max_pages (Z.of_nat k + 1) = true
             /\ fetched = seqZ 1 (Z.of_nat k))
            \/ (over_limit max_pages (Z.of_nat k + 1) = false
                /\ page_documents (Z.of_nat k + 1) = []
                /\ fetched = seqZ 1 (Z.of_nat k + 1))))
  /\ ((exists m, max_pages = Some m /\ m <> 0)
      \/ (exists p, 1 <= p /\ page_documents p = []) ->
      exists fuel result, discover_documents fuel = Some result).
Proof.
  split.
  - intros fuel docs fetched H. unfold discover_documents in H.
    apply discover_loop_spec in H. destruct H as (k & Hall & Hdocs & Hend).
    exists k. replace (1 + Z.of_nat k) with (Z.of_nat k + 1) in Hend by lia.
    split; [intros p Hp; apply Hall; lia|].
    split; [exact Hdocs | exact Hend].
  - intros [(m & Hm & Hnz)|(p & Hp & Hempty)].
    + exists (S (Z.to_nat m)). apply discover_loop_terminates.
      left. rewrite Hm. simpl.
      destruct (Z.eqb_spec m 0) as [|_]; [contradiction|]. simpl.
      rewrite Z.gtb_ltb. apply Z.ltb_lt. lia.
    + exists (S (Z.to_nat (p - 1))). apply discover_loop_terminates.
      right. replace (1 + Z.of_nat (Z.to_nat (p - 1))) with p by lia.
      exact Hempty.
Qed.

End Plugin.

(** *** A concrete source *)

Local Abbreviation on_plain_source f :=
  (f "https://example.com" true (fun s : string => s) plain_normalize_url
     plain_hash plain_validate_date).

Example discover_broken :
  on_plain_source discover_documents broken_listing None 3%nat
  = Some ([one_document], [1; 2]).
Proof. reflexivity. Qed.

Example discover_two_pages :
  on_plain_source discover_documents endless_listing (Some 2) 3%nat
  = Some ([one_document; one_document], [1; 2]).
Proof. reflexivity. Qed.

Lemma endless_unlimited (fuel : nat) :
  forall page documents fetched,
    on_plain_source discover_loop endless_listing (Some 0)
      fuel page documents fetched = None.
Proof.
  induction fuel as [|fuel IH]; intros page documents fetched; [reflexivity|].
  cbn. apply IH.
Qed.

(** C6 (as stated) fails on the code: with [max_pages = 0] a page limit is
    given, yet the limit test is skipped and on a listing whose pages all
    have documents the loop never ends; and a page whose fetch raises stops
    the loop although no limit is reached and no fetched page was empty. *)
Lemma discover_not_as_specified :
  ~ on_plain_source terminates_as_specified endless_listing (Some 0)
  /\ ~ on_plain_source stops_as_specified broken_listing None.
Proof.
  split.
  - intros H. destruct H as (fuel & result & Hrun).
    { left. eexists. reflexivity. }
    unfold discover_documents in Hrun. rewrite endless_unlimited in Hrun.
    discriminate Hrun.
  - intros H.
    destruct (H 3%nat [one_document] [1; 2] eq_refl)
      as [(m & Hm & _)|(p & Hp & items & Hitems & _)].
    + discriminate Hm.
    + injection Hp as <-. discriminate Hitems.
Qed.

(** The amended contract on the listing whose second page fails, without a
    limit, and on the endless listing with a limit of two pages. *)
Lemma discover_documents_stops_witness :
  (on_plain_source discover_documents broken_listing None 3%nat
   = Some ([one_document], [1; 2])
   /\ exists k : nat,
        [one_document] =
        concat (page_documents "https://example.com" true (fun s => s)
                  plain_normalize_url plain_hash plain_validate_date broken_listing
                <$> seqZ 1 (Z.of_nat k)))
  /\ (1 <= 2
      /\ page_documents "https://example.com" true (fun s => s) plain_normalize_url
           plain_hash plain_validate_date broken_listing 2 = []
      /\ exists fuel result,
           on_plain_source discover_documents broken_listing None fuel = Some result)
  /\ (Some 2 = Some 2 /\ 2 <> 0
      /\ exists fuel result,
           on_plain_source discover_documents endless_listing (Some 2) fuel = Some result).
Proof.
  pose proof (discover_documents_stops "https://example.com" true (fun s => s)
                plain_normalize_url plain_hash plain_validate_date
                broken_listing None) as [Hspec Hterm].
  pose proof (discover_documents_stops "https://example.com" true (fun s => s)
                plain_normalize_url plain_hash plain_validate_date
                endless_listing (Some 2)) as [_ Hterm2].
  split; [split; [reflexivity|]|split].
  - destruct (Hspec 3%nat [one_document] [1; 2] eq_refl) as (k & _ & Hdocs & _).
    exists k. exact Hdocs.
  - split; [lia|]. split; [reflexivity|].
    apply Hterm. right. exists 2. split; [lia | reflexivity].
  - split; [reflexivity|]. split; [lia|].
    apply Hterm2. left. exists 2. split; [reflexivity | lia].
Defined.

End MySourcePlugin.

(* ===================================================================== *)
(** ** Deduplication gate *)
(* ===================================================================== *)

Module DeduplicationGate.

(** Modelled from the spec: [DedupDecision] of the data model, "one of
    {new, updated, unchanged, failed}"; the sources declare no such type. *)
Inductive DedupDecision : Type :=
| new
| updated
| unchanged
| failed.

(** The persistent store, as far as the gate reads it: the last fingerprint
    recorded for a [(sourceID, externalID)] pair. In the schema this is the
    [documents] table, unique on [(source_id, external_id)], with the
    fingerprint in [content_hash]. *)
Abbreviation fingerprints := (gmap (string * string) string).

(** Modelled from the spec: [getLastFingerprint(sourceID, externalID)] of
    the persistent store contract, of which the sources hold no code. *)
Definition getLastFingerprint (store : fingerprints) (sourceID externalID : string)
    : option string :=
  store !! (sourceID, externalID).

(** Modelled from the spec: the Deduplication Gate's
    [decide(sourceID, externalID, fingerprint)], of which the sources hold
    no implementation. "No stored record => new. Stored record with
    different fingerprint => updated. Identical fingerprint => unchanged." *)
Definition decide (store : fingerprints) (sourceID externalID fingerprint : string)
    : DedupDecision :=
  match getLastFingerprint store sourceID externalID with
  | None => new
  | Some stored => if String.eqb stored fingerprint then unchanged else updated
  end.

(** Modelled from the spec: a call received by the Index Writer, which is
    not among the sources either. *)
Record index_write : Type := mkIndexWrite {
  written_source : string;
  written_external_id : string;
  written_fingerprint : string
}.

(** The two collaborators the gate stands between: the store of last
    fingerprints and the calls made to the Index Writer so far. *)
Record pipeline : Type := mkPipeline {
  store : fingerprints;
  index_writes : list index_write
}.

(** Modelled from the spec: the hand-over from the gate to the Index Writer
    for one processed document, of which the sources hold no
    implementation. Accepted documents ([new], [updated]) are recorded and
    go to the Index Writer; for [unchanged] "indexing is skipped entirely". *)
Definition dispatch (p : pipeline) (sourceID externalID fingerprint : string)
    : DedupDecision * pipeline :=
  match decide (store p) sourceID externalID fingerprint with
  | unchanged => (unchanged, p)
  | failed => (failed, p)
  | decision =>
      (decision,
       {| store := <[(sourceID, externalID) := fingerprint]> (store p);
          index_writes :=
            index_writes p ++ [mkIndexWrite sourceID externalID fingerprint] |})
  end.

Example first_scan :
  dispatch (mkPipeline ∅ []) "gemeenteblad" "doc-1" "ab12" =
  (new, mkPipeline {[ ("gemeenteblad", "doc-1") := "ab12" ]}
          [mkIndexWrite "gemeenteblad" "doc-1" "ab12"]).
Proof. reflexivity. Qed.

Lemma decide_new store sourceID externalID fingerprint :
  store !! (sourceID, externalID) = None ->
  decide store sourceID externalID fingerprint = new.
Proof. intros H. unfold decide, getLastFingerprint. by rewrite H. Qed.

Lemma decide_updated store sourceID externalID fingerprint stored :
  store !! (sourceID, externalID) = Some stored ->
  stored <> fingerprint ->
  decide store sourceID externalID fingerprint = updated.
Proof.
  intros H Hne. unfold decide, getLastFingerprint. rewrite H.
  destruct (String.eqb_spec stored fingerprint); [contradiction | reflexivity].
Qed.

Lemma decide_unchanged store sourceID externalID fingerprint :
  store !! (sourceID, externalID) = Some fingerprint ->
  decide store sourceID externalID fingerprint = unchanged.
Proof.
  intros H. unfold decide, getLastFingerprint. rewrite H.
  by rewrite String.eqb_refl.
Qed.

Lemma decide_not_failed store sourceID externalID fingerprint :
  decide store sourceID externalID fingerprint <> failed.
Proof.
  unfold decide. destruct (getLastFingerprint _ _ _) as [stored|]; [|discriminate].
  destruct (String.eqb stored fingerprint); discriminate.
Qed.

(** After any dispatch of a document, the store holds its fingerprint. *)
Lemma dispatch_records p sourceID externalID fingerprint :
  store (snd (dispatch p sourceID externalID fingerprint)) !! (sourceID, externalID)
  = Some fingerprint.
Proof.
  unfold dispatch.
  pose proof (decide_not_failed (store p) sourceID externalID fingerprint) as Hnf.
  destruct (decide (store p) sourceID externalID fingerprint) eqn:Hd; simpl;
    try apply lookup_insert_eq; [|contradiction].
  unfold decide, getLastFingerprint in Hd.
  destruct (store p !! (sourceID, externalID)) as [stored|]; [|discriminate].
  destruct (String.eqb_spec stored fingerprint); [by subst | discriminate].
Qed.

(** C1. [decide(sourceID, externalID, fingerprint)]: no stored record for
    the pair gives [new]; a stored record with a different fingerprint gives
    [updated]; an identical stored fingerprint gives [unchanged], and then
    the Index Writer is not invoked (the list of index writes is left as it
    was). In particular a second scan of a document whose fingerprint did
    not change decides [unchanged] and writes nothing. *)
Theorem decide_correct (p : pipeline) (sourceID externalID fingerprint : string) :
  (store p !! (sourceID, externalID) = None ->
     decide (store p) sourceID externalID fingerprint = new)
  /\ (forall stored,
        store p !! (sourceID, externalID) = Some stored -> stored <> fingerprint ->
        decide (store p) sourceID externalID fingerprint = updated)
  /\ (store p !! (sourceID, externalID) = Some fingerprint ->
        decide (store p) sourceID externalID fingerprint = unchanged
        /\ dispatch p sourceID externalID fingerprint = (unchanged, p))
  /\ (let after_first := snd (dispatch p sourceID externalID fingerprint) in
      dispatch after_first sourceID externalID fingerprint = (unchanged, after_first)).
Proof.
  split; [apply decide_new|].
  split; [intros stored; apply decide_updated|].
  assert (Hskip : forall q, store q !! (sourceID, externalID) = Some fingerprint ->
                            dispatch q sourceID externalID fingerprint = (unchanged, q)).
  { intros q Hq. unfold dispatch. by rewrite decide_unchanged. }
  split.
  - intros H. split; [by apply decide_unchanged | by apply Hskip].
  - simpl. apply Hskip, dispatch_records.
Qed.

(** Two scans of the same document, then a scan after its text changed. *)
Lemma decide_correct_witness :
  let empty := mkPipeline ∅ [] in
  let scanned := snd (dispatch empty "gemeenteblad" "doc-1" "ab12") in
  (store empty !! ("gemeenteblad", "doc-1") = None
   /\ decide (store empty) "gemeenteblad" "doc-1" "ab12" = new)
  /\ (store scanned !! ("gemeenteblad", "doc-1") = Some "ab12"
      /\ dispatch scanned "gemeenteblad" "doc-1" "ab12" = (unchanged, scanned))
  /\ (store scanned !! ("gemeenteblad", "doc-1") = Some "ab12" /\ "ab12" <> "cd34"
      /\ decide (store scanned) "gemeenteblad" "doc-1" "cd34" = updated).
Proof.
  intros empty scanned.
  destruct (decide_correct empty "gemeenteblad" "doc-1" "ab12") as (Hnew & _ & _ & Hagain).
  destruct (decide_correct scanned "gemeenteblad" "doc-1" "cd34") as (_ & Hupd & _).
  split; [split; [reflexivity | apply Hnew; reflexivity]|].
  split; [split; [reflexivity | exact Hagain]|].
  split; [reflexivity|]. split; [discriminate|].
  apply (Hupd "ab12"); [reflexivity | discriminate].
Defined.

End DeduplicationGate.

(* ===================================================================== *)
(** ** Scan jobs and their counters *)
(* ===================================================================== *)

Module ScanJobs.

Import DeduplicationGate (DedupDecision, new, updated, unchanged, failed).

Inductive job_kind : Type :=
| full
| incremental
| manual.

Inductive job_status : Type :=
| pending
| running
| completed
| job_failed.

(** A row of the [scan_jobs] table, without its timestamps, [triggered_by]
    and [job_config]. The table has four counters ([INTEGER DEFAULT 0]) and
    no column for unchanged documents. *)
Record ScanJob : Type := mkScanJob {
  id : string;
  source_id : string;
  job_type : job_kind;
  status : job_status;
  documents_found : Z;
  documents_new : Z;
  documents_updated : Z;
  documents_failed : Z;
  error_details : option string
}.

(** A job as the orchestrator holds it during a run: the row, and the
    number of candidates decided [unchanged] so far, which is the fourth
    term of the invariant of the data model. *)
Record job_run : Type := mkJobRun {
  row : ScanJob;
  documents_unchanged : Z
}.

(** A job as it is created: [status = 'pending'], every counter 0. *)
Definition created (id_ source : string) (kind : job_kind) : job_run :=
  mkJobRun (mkScanJob id_ source kind pending 0 0 0 0 None) 0.

Definition with_status (s : job_status) (details : option string) (run : job_run)
    : job_run :=
  {| row := {| id := id (row run); source_id := source_id (row run);
               job_type := job_type (row run); status := s;
               documents_found := documents_found (row run);
               documents_new := documents_new (row run);
               documents_updated := documents_updated (row run);
               documents_failed := documents_failed (row run);
               error_details := details |};
     documents_unchanged := documents_unchanged run |}.

(** Modelled from the spec: the Job Orchestrator's bookkeeping for one
    processed candidate, of which the sources hold no implementation (only
    the [scan_jobs] table is described). "Job statistics are updated
    incrementally as candidates are processed": the candidate is counted as
    found and under its disposition in one step. *)
Definition record_candidate (decision : DedupDecision) (run : job_run) : job_run :=
  {| row := {| id := id (row run); source_id := source_id (row run);
               job_type := job_type (row run); status := status (row run);
               documents_found := documents_found (row run) + 1;
               documents_new :=
                 documents_new (row run) + (if decision is new then 1 else 0);
               documents_updated :=
                 documents_updated (row run) + (if decision is updated then 1 else 0);
               documents_failed :=
                 documents_failed (row run) + (if decision is failed then 1 else 0);
               error_details := error_details (row run) |};
     documents_unchanged :=
       documents_unchanged run + (if decision is unchanged then 1 else 0) |}.

(** Modelled from the spec: the state machine of the Job Orchestrator,
    [pending -> running -> {completed, failed}], of which the sources hold
    no implementation. Every observable change of a job is one step. *)
Inductive step : job_run -> job_run -> Prop :=
| step_start run :
    status (row run) = pending -> step run (with_status running None run)
| step_candidate run decision :
    status (row run) = running -> step run (record_candidate decision run)
| step_complete run :
    status (row run) = running -> step run (with_status completed None run)
| step_fail run details :
    status (row run) = running -> step run (with_status job_failed (Some details) run).

(** The states of a job that can be observed during its lifetime. *)
Definition observable (run : job_run) : Prop :=
  exists id_ source kind, rtc step (created id_ source kind) run.

Definition counts_consistent (run : job_run) : Prop :=
  documents_found (row run) =
  documents_new (row run) + documents_updated (row run) + documents_unchanged run
  + documents_failed (row run).

(** A running job after the given dispositions, oldest first. *)
Definition after_candidates (decisions : list DedupDecision) : job_run :=
  foldl (fun run decision => record_candidate decision run)
        (with_status running None (created "job-1" "gemeenteblad-amsterdam" full))
        decisions.

Example ten_new :
  after_candidates (replicate 10 new) =
  mkJobRun (mkScanJob "job-1" "gemeenteblad-amsterdam" full running 10 10 0 0 None) 0.
Proof. reflexivity. Qed.

Example rescan_unchanged :
  with_status completed None (after_candidates (replicate 10 unchanged)) =
  mkJobRun (mkScanJob "job-1" "gemeenteblad-amsterdam" full completed 10 0 0 0 None) 10.
Proof. reflexivity. Qed.

Lemma step_consistent (run run' : job_run) :
  step run run' -> counts_consistent run -> counts_consistent run'.
Proof.
  unfold counts_consistent.
  intros Hstep Hc. destruct Hstep as [run _|run decision _|run _|run details _]; simpl;
    try exact Hc.
  destruct decision; lia.
Qed.

Lemma after_candidates_observable (decisions : list DedupDecision) :
  observable (after_candidates decisions).
Proof.
  exists "job-1", "gemeenteblad-amsterdam", full.
  unfold after_candidates.
  set (start := created "job-1" "gemeenteblad-amsterdam" full).
  assert (Hrun : rtc step start (with_status running None start)).
  { apply rtc_once. by constructor. }
  assert (Hstatus : status (row (with_status running None start)) = running)
    by reflexivity.
  revert Hrun Hstatus. generalize (with_status running None start) as run.
  induction decisions as [|decision rest IH]; intros run Hrun Hstatus; simpl.
  - exact Hrun.
  - apply IH; [|exact Hstatus].
    eapply rtc_r; [exact Hrun|]. by constructor.
Qed.

(** In the row alone the three stored dispositions never exceed the number
    of documents found. *)
Lemma stored_counts_bounded (run : job_run) :
  counts_consistent run -> 0 <= documents_unchanged run ->
  documents_new (row run) + documents_updated (row run) + documents_failed (row run)
  <= documents_found (row run).
Proof. unfold counts_consistent. lia. Qed.

(** C2. At every observable point of the lifetime of a scan job -- after
    each candidate, not only at completion -- the counters satisfy
    [documents_found = documents_new + documents_updated
     + documents_unchanged + documents_failed]. *)
Theorem counts_always_consistent (run : job_run) :
  observable run -> counts_consistent run.
Proof.
  intros (id_ & source & kind & Hobs).
  apply (rtc_ind_r (R := step) (fun r => counts_consistent r) (created id_ source kind));
    [reflexivity | | exact Hobs].
  intros before after _ Hstep IH. eapply step_consistent; eauto.
Qed.

(** A job observed after three candidates, one of which failed. *)
Lemma counts_always_consistent_witness :
  observable (after_candidates [new; failed; unchanged])
  /\ counts_consistent (after_candidates [new; failed; unchanged]).
Proof.
  split; [apply after_candidates_observable|].
  apply counts_always_consistent. apply after_candidates_observable.
Defined.

End ScanJobs.

(* ===================================================================== *)
(** ** Pagination component: what the strip shows and where it leads *)
(* ===================================================================== *)

Module PaginationNavigation.

Import Pagination.

(** [goToPage(page)]: the page carried by the ['pageChange'] event that is
    dispatched, if one is. *)
Definition goToPage (currentPage totalPages page : Z) : option Z :=
  if (page >=? 1) && (page <=? totalPages) && negb (page =? currentPage)
  then Some page else None.

Definition previousPage (currentPage totalPages : Z) : option Z :=
  if currentPage >? 1
  then goToPage currentPage totalPages (Number.sub currentPage 1)
  else None.

Definition nextPage (currentPage totalPages : Z) : option Z :=
  if currentPage <? totalPages
  then goToPage currentPage totalPages (Number.add currentPage 1)
  else None.

(** [disabled={currentPage === 1}] and [disabled={currentPage === totalPages}] *)
Definition previous_disabled (currentPage : Z) : bool := currentPage =? 1.

Definition next_disabled (currentPage totalPages : Z) : bool :=
  currentPage =? totalPages.

Example previous_from_3 : previousPage 3 10 = Some 2.
Proof. reflexivity. Qed.

Example next_beyond_the_end : nextPage 12 10 = None.
Proof. reflexivity. Qed.

(** Beyond the safe integers an enabled Next button can be dead:
    [currentPage + 1] is [currentPage] again. *)
Example next_stuck :
  next_disabled (2 ^ 53) (2 ^ 53 + 2) = false
  /\ nextPage (2 ^ 53) (2 ^ 53 + 2) = None.
Proof. split; reflexivity. Qed.

(** Membership in a strip, one disjunct per segment. *)
Ltac in_strip :=
  solve
    [ f_equal; lia
    | apply list_elem_of_fmap; eexists; split;
      [reflexivity | apply elem_of_seqZ; lia]
    | apply elem_of_cons; left; in_strip
    | apply elem_of_cons; right; in_strip
    | apply elem_of_app; left; in_strip
    | apply elem_of_app; right; in_strip ].

Lemma shown_pages (currentPage totalPages p : Z) :
  1 <= currentPage <= totalPages ->
  1 <= p <= totalPages ->
  p = 1 \/ p = totalPages \/ currentPage - 2 <= p <= currentPage + 2 ->
  PageNumber p ∈ exact_strip currentPage totalPages.
Proof.
  intros Hc Hp Hnear. unfold exact_strip, delta, for_range.
  destruct (Z.eq_dec p 1), (Z.eq_dec p totalPages);
    strip_cases currentPage totalPages; in_strip.
Qed.

Lemma shown_only (currentPage totalPages p : Z) :
  1 <= currentPage <= totalPages ->
  PageNumber p ∈ exact_strip currentPage totalPages ->
  p = 1 \/ p = totalPages \/ currentPage - 2 <= p <= currentPage + 2.
Proof.
  intros Hc. unfold exact_strip, delta, for_range.
  strip_cases currentPage totalPages;
    rewrite ?elem_of_app, ?elem_of_cons, ?elem_of_app, ?elem_of_cons,
      ?list_elem_of_fmap, ?elem_of_nil;
    intros Hin;
    repeat match goal with
      | H : _ \/ _ |- _ => destruct H
      | H : _ ∈ _ <$> _ |- _ => apply list_elem_of_fmap in H
      | H : exists _, _ |- _ => destruct H as (? & ? & ?%elem_of_seqZ)
      | H : PageNumber _ = PageNumber _ |- _ => injection H as ->
      | H : PageNumber _ = Ellipsis |- _ => discriminate H
      | H : False |- _ => destruct H
      end; lia.
Qed.

Lemma exact_strip_length (currentPage totalPages : Z) :
  (length (exact_strip currentPage totalPages) <= 9)%nat.
Proof.
  unfold exact_strip, delta, for_range.
  destruct (currentPage - 2 >? 2), (currentPage + 2 <? totalPages - 1),
    (totalPages >? 1);
    cbn [length]; rewrite ?length_app; cbn [length];
    rewrite ?length_app; cbn [length];
    rewrite length_fmap, length_seqZ; lia.
Qed.

Lemma ellipsis_shown (currentPage totalPages : Z) :
  currentPage - 2 > 2 \/ currentPage + 2 < totalPages - 1 ->
  Ellipsis ∈ exact_strip currentPage totalPages.
Proof.
  intros Hgap. unfold exact_strip, delta.
  rewrite !Z.gtb_ltb.
  destruct (Z.ltb_spec 2 (currentPage - 2));
    destruct (Z.ltb_spec (currentPage + 2) (totalPages - 1));
    destruct (Z.ltb_spec 1 totalPages); try lia;
    rewrite ?elem_of_app, ?elem_of_cons, ?elem_of_app, ?elem_of_cons; auto 10.
Qed.

(** X1. For [1 <= currentPage <= totalPages <= MAX_SAFE_INTEGER] the call
    returns a strip whose page buttons are exactly the first page, the last
    page and the pages at distance at most 2 from the current one. *)
Theorem shown_iff (fuel : nat) (currentPage totalPages p : Z) :
  1 <= currentPage <= totalPages ->
  totalPages <= Number.MAX_SAFE_INTEGER ->
  (6 <= fuel)%nat ->
  exists pages,
    getPageNumbers fuel currentPage totalPages = Some pages
    /\ (PageNumber p ∈ pages
        <-> 1 <= p <= totalPages
            /\ (p = 1 \/ p = totalPages \/ currentPage - 2 <= p <= currentPage + 2)).
Proof.
  intros Hc Hsafe Hfuel. exists (exact_strip currentPage totalPages).
  split; [by apply getPageNumbers_exact|]. split.
  - intros Hin. split; [eapply exact_strip_elem; eauto | eapply shown_only; eauto].
  - intros [Hp Hnear]. by apply shown_pages.
Qed.

Lemma shown_iff_witness :
  exists pages,
    getPageNumbers 6 7 20 = Some pages
    /\ (PageNumber 9 ∈ pages) /\ (PageNumber 10 ∉ pages).
Proof.
  destruct (shown_iff 6 7 20 9) as (pages & Hp & H9);
    [lia | unfold Number.MAX_SAFE_INTEGER; lia | lia |].
  destruct (shown_iff 6 7 20 10) as (pages' & Hp' & H10);
    [lia | unfold Number.MAX_SAFE_INTEGER; lia | lia |].
  assert (pages' = pages) as -> by congruence.
  exists pages. split; [exact Hp|]. split.
  - apply H9. lia.
  - intros Hin. apply H10 in Hin. lia.
Defined.

(** X2. For [1 <= currentPage <= totalPages <= MAX_SAFE_INTEGER], however
    many pages there are, the strip returned has at most nine entries. *)
Theorem strip_length (fuel : nat) (currentPage totalPages : Z) :
  1 <= currentPage <= totalPages ->
  totalPages <= Number.MAX_SAFE_INTEGER ->
  (6 <= fuel)%nat ->
  exists pages,
    getPageNumbers fuel currentPage totalPages = Some pages
    /\ (length pages <= 9)%nat.
Proof.
  intros Hc Hsafe Hfuel. exists (exact_strip currentPage totalPages).
  split; [by apply getPageNumbers_exact | apply exact_strip_length].
Qed.

Lemma strip_length_witness :
  exists pages,
    getPageNumbers 6 500 1000 = Some pages /\ (length pages <= 9)%nat.
Proof.
  apply (strip_length 6 500 1000); [lia | unfold Number.MAX_SAFE_INTEGER; lia | lia].
Defined.

(** X3. For [1 <= currentPage <= totalPages <= MAX_SAFE_INTEGER], a page of
    the result is left out of the strip returned only when that strip shows
    an ellipsis. *)
Theorem hidden_behind_ellipsis (fuel : nat) (currentPage totalPages p : Z) :
  1 <= currentPage <= totalPages ->
  totalPages <= Number.MAX_SAFE_INTEGER ->
  (6 <= fuel)%nat ->
  1 <= p <= totalPages ->
  exists pages,
    getPageNumbers fuel currentPage totalPages = Some pages
    /\ (PageNumber p ∉ pages -> Ellipsis ∈ pages).
Proof.
  intros Hc Hsafe Hfuel Hp. exists (exact_strip currentPage totalPages).
  split; [by apply getPageNumbers_exact|].
  intros Hhidden. apply ellipsis_shown.
  destruct (Z_lt_dec 2 (currentPage - 2)) as [|HL]; [lia|].
  destruct (Z_lt_dec (currentPage + 2) (totalPages - 1)) as [|HR]; [lia|].
  exfalso. apply Hhidden. apply shown_pages; lia.
Qed.

Lemma hidden_behind_ellipsis_witness :
  exists pages,
    getPageNumbers 6 7 20 = Some pages
    /\ (PageNumber 12 ∉ pages) /\ (Ellipsis ∈ pages).
Proof.
  destruct (hidden_behind_ellipsis 6 7 20 12) as (pages & Hp & Hdots);
    [lia | unfold Number.MAX_SAFE_INTEGER; lia | lia | lia |].
  assert (Hhidden : PageNumber 12 ∉ pages).
  { injection Hp as <-. intros Hin.
    repeat (apply elem_of_cons in Hin as [Hin|Hin]; [discriminate Hin|]).
    by apply elem_of_nil in Hin. }
  exists pages. split; [exact Hp|]. split; [exact Hhidden | exact (Hdots Hhidden)].
Defined.

(** X4. For [1 <= currentPage <= totalPages <= MAX_SAFE_INTEGER], every page
    button of the strip returned other than the current page's own leads to
    that page: the click is never dropped by the range test of [goToPage];
    the button of the current page dispatches nothing. *)
Theorem strip_buttons_lead (fuel : nat) (currentPage totalPages : Z) :
  1 <= currentPage <= totalPages ->
  totalPages <= Number.MAX_SAFE_INTEGER ->
  (6 <= fuel)%nat ->
  exists pages,
    getPageNumbers fuel currentPage totalPages = Some pages
    /\ forall n, PageNumber n ∈ pages ->
         goToPage currentPage totalPages n
         = if n =? currentPage then None else Some n.
Proof.
  intros Hc Hsafe Hfuel. exists (exact_strip currentPage totalPages).
  split; [by apply getPageNumbers_exact|].
  intros n Hin. pose proof (exact_strip_elem _ _ _ Hc Hin) as Hn.
  unfold goToPage.
  destruct (Z.geb_spec n 1); [|lia].
  destruct (Z.leb_spec n totalPages); [|lia].
  destruct (n =? currentPage); reflexivity.
Qed.

Lemma strip_buttons_lead_witness :
  exists pages,
    getPageNumbers 6 5 10 = Some pages
    /\ PageNumber 7 ∈ pages
    /\ goToPage 5 10 7 = Some 7.
Proof.
  destruct (strip_buttons_lead 6 5 10) as (pages & Hp & Hlead);
    [lia | unfold Number.MAX_SAFE_INTEGER; lia | lia |].
  assert (Hin : PageNumber 7 ∈ pages).
  { injection Hp as <-. do 6 (apply elem_of_cons; right). apply elem_of_cons. by left. }
  exists pages. split; [exact Hp|]. split; [exact Hin|].
  exact (Hlead 7 Hin).
Defined.

(** X5. For [1 <= currentPage <= totalPages <= MAX_SAFE_INTEGER] the Previous
    and Next buttons are disabled exactly when their handler would dispatch
    nothing; otherwise they lead to the neighbouring page. *)
Theorem arrows_match_disabled (currentPage totalPages : Z) :
  1 <= currentPage <= totalPages ->
  totalPages <= Number.MAX_SAFE_INTEGER ->
  previousPage currentPage totalPages
    = (if previous_disabled currentPage then None else Some (currentPage - 1))
  /\ nextPage currentPage totalPages
    = (if next_disabled currentPage totalPages then None else Some (currentPage + 1)).
Proof.
  unfold Number.MAX_SAFE_INTEGER. intros Hc Hsafe.
  unfold previousPage, nextPage, previous_disabled, next_disabled.
  rewrite Number.sub_exact, Number.add_exact by lia.
  unfold goToPage. rewrite Z.gtb_ltb.
  destruct (Z.ltb_spec 1 currentPage), (Z.eqb_spec currentPage 1); try lia;
    destruct (Z.ltb_spec currentPage totalPages),
      (Z.eqb_spec currentPage totalPages); try lia;
    repeat match goal with
      | |- context [?a >=? ?b] => destruct (Z.geb_spec a b); try lia
      | |- context [?a <=? ?b] => destruct (Z.leb_spec a b); try lia
      | |- context [?a =? ?b] => destruct (Z.eqb_spec a b); try lia
      end; simpl; auto.
Qed.

Lemma arrows_match_disabled_witness :
  previousPage 10 10 = Some 9 /\ nextPage 10 10 = None.
Proof.
  exact (arrows_match_disabled 10 10 ltac:(lia)
           ltac:(unfold Number.MAX_SAFE_INTEGER; lia)).
Defined.

(** X6. Whatever the props are, no handler ever dispatches a page outside
    [1, totalPages] or the current page itself. *)
Theorem dispatched_page_valid (currentPage totalPages page p : Z) :
  goToPage currentPage totalPages page = Some p
  \/ previousPage currentPage totalPages = Some p
  \/ nextPage currentPage totalPages = Some p ->
  1 <= p <= totalPages /\ p <> currentPage.
Proof.
  assert (Hgo : forall q, goToPage currentPage totalPages q = Some p ->
                          1 <= p <= totalPages /\ p <> currentPage).
  { intros q. unfold goToPage.
    destruct (Z.geb_spec q 1), (Z.leb_spec q totalPages), (Z.eqb_spec q currentPage);
      simpl; intros Heq; inversion Heq; subst; lia. }
  unfold previousPage, nextPage.
  intros [H|[H|H]]; [eauto| |].
  - destruct (currentPage >? 1); [eauto | discriminate].
  - destruct (currentPage <? totalPages); [eauto | discriminate].
Qed.

Lemma dispatched_page_valid_witness :
  previousPage 4 3 = Some 3 /\ 1 <= 3 <= 3 /\ 3 <> 4.
Proof.
  split; [reflexivity|].
  apply (dispatched_page_valid 4 3 0 3). right. left. reflexivity.
Defined.

End PaginationNavigation.

(* ===================================================================== *)
(** ** Search store: the successful search *)
(* ===================================================================== *)

Module PolicySearchStoreRuns.

Import PolicySearchStore.

(** X7. While the request is in flight the store shows [loading] with the error
    cleared and the results of the previous search still in place; once the
    response is in, results, total, facets and timing are those of the
    response, the error stays cleared, and [page] is the page that was asked
    for, whatever page the response names. *)
Theorem search_success
    (api : SearchRequest -> settled SearchResponse)
    (q : string) (filters_arg : option SearchFilters) (page_arg : option Z)
    (sort_arg : option string) (prior : SearchState) (response : SearchResponse) :
  let f := default no_filters filters_arg in
  let p := default 1 page_arg in
  api (mkSearchRequest q f p 20 (default "relevance" sort_arg)) = Fulfilled response ->
  let run := search api q filters_arg page_arg sort_arg prior in
  (loading (fst run) = true /\ error (fst run) = None
   /\ results (fst run) = results prior /\ total (fst run) = total prior)
  /\ results (snd run) = resp_results response
  /\ total (snd run) = resp_total response
  /\ facets (snd run) = resp_facets response
  /\ took_ms (snd run) = resp_took_ms response
  /\ loading (snd run) = false
  /\ error (snd run) = None
  /\ query (snd run) = q /\ filters (snd run) = f /\ page (snd run) = p.
Proof.
  intros f p Hok run. subst run f p. unfold search. simpl. rewrite Hok. simpl.
  repeat split.
Qed.

Lemma search_success_witness :
  let response := mkSearchResponse [] 3 (mkSearchFacets [] [] []) 7 15 in
  let api := fun _ : SearchRequest => Fulfilled response in
  let failed_before := search_failed (mkCaught (Some "HTTP 502: Bad Gateway")) initialState in
  let run := search api "afval" None (Some 2) None failed_before in
  api (mkSearchRequest "afval" no_filters 2 20 "relevance") = Fulfilled response
  /\ error failed_before = Some "HTTP 502: Bad Gateway"
  /\ error (snd run) = None /\ total (snd run) = 3 /\ page (snd run) = 2.
Proof.
  intros response api failed_before run.
  pose proof (search_success api "afval" None (Some 2) None failed_before response
                eq_refl) as (_ & _ & Ht & _ & _ & _ & He & _ & _ & Hp).
  split; [reflexivity|]. split; [reflexivity|].
  split; [exact He|]. split; [exact Ht | exact Hp].
Defined.

End PolicySearchStoreRuns.

(* ===================================================================== *)
(** ** Documents store: the cache, failures, and undoing a favorite *)
(* ===================================================================== *)

Module PolicyDocumentsStoreRuns.

Import PolicySearchStore (PolicyDocument, caught, settled, Fulfilled, Rejected,
                          message_or, mkCaught).
Import PolicyDocumentsStore.

(** X8. A document that was loaded is found in the cache under the id that was
    asked for, every other cache entry and the favorites are untouched, and
    the store is no longer loading and shows no error. *)
Theorem loadDocument_caches
    (api : string -> settled PolicyDocument) (documentId : string)
    (state : DocumentsState) (document : PolicyDocument) :
  api documentId = Fulfilled document ->
  let after := fst (loadDocument api documentId state) in
  documents after !! documentId = Some document
  /\ (forall other, other <> documentId ->
        documents after !! other = documents state !! other)
  /\ favorites after = favorites state
  /\ loading after = false /\ error after = None
  /\ snd (loadDocument api documentId state) = Fulfilled document.
Proof.
  intros Hok after. subst after. unfold loadDocument. rewrite Hok. simpl.
  split; [apply lookup_insert_eq|].
  split; [intros other Hne; by apply lookup_insert_ne|].
  auto.
Qed.

Definition sample_document (id_ : string) : PolicyDocument :=
  PolicySearchStore.mkPolicyDocument id_ "src-1" None "Verordening" None "ab12"
    "https://example.com/doc.pdf" (Some "pdf") None None None None None None
    "indexed" None 0 0 None.

Lemma loadDocument_caches_witness :
  let api := fun _ : string => Fulfilled (sample_document "doc-9") in
  let state := cacheDocument (sample_document "doc-1") initialState in
  let after := fst (loadDocument api "doc-2" state) in
  api "doc-2" = Fulfilled (sample_document "doc-9")
  /\ documents after !! "doc-2" = Some (sample_document "doc-9")
  /\ ("doc-1" <> "doc-2" /\ documents after !! "doc-1" = Some (sample_document "doc-1")).
Proof.
  intros api state after.
  pose proof (loadDocument_caches api "doc-2" state (sample_document "doc-9") eq_refl)
    as (Hnew & Hother & _).
  split; [reflexivity|]. split; [exact Hnew|]. split; [discriminate|].
  etransitivity; [apply (Hother "doc-1"); discriminate | reflexivity].
Defined.

(** X9. A load that fails leaves the cache and the favorites as they were, ends
    the loading state, shows the failure's message (or 'Failed to load
    document' when it has none) and passes the failure on to the caller. *)
Theorem loadDocument_failure
    (api : string -> settled PolicyDocument) (documentId : string)
    (state : DocumentsState) (e : caught) :
  api documentId = Rejected e ->
  let run := loadDocument api documentId state in
  documents (fst run) = documents state
  /\ favorites (fst run) = favorites state
  /\ loading (fst run) = false
  /\ error (fst run) = Some (message_or e "Failed to load document")
  /\ snd run = Rejected e.
Proof.
  intros Hfail run. subst run. unfold loadDocument. rewrite Hfail. simpl. auto.
Qed.

Lemma loadDocument_failure_witness :
  let api := fun _ : string => @Rejected PolicyDocument (mkCaught None) in
  let state := cacheDocument (sample_document "doc-1") initialState in
  api "doc-2" = Rejected (mkCaught None)
  /\ documents (fst (loadDocument api "doc-2" state)) = documents state
  /\ error (fst (loadDocument api "doc-2" state)) = Some "Failed to load document".
Proof.
  intros api state.
  pose proof (loadDocument_failure api "doc-2" state (mkCaught None) eq_refl)
    as (Hdocs & _ & _ & Herr & _).
  split; [reflexivity|]. split; [exact Hdocs | exact Herr].
Defined.

(** X10. When the API call of [addFavorite] or [removeFavorite] fails, the store
    is left exactly as it was -- not even its [error] field is set -- and
    the failure is thrown on to the caller. *)
Theorem favorites_failure_untouched (state : DocumentsState) (e : caught) :
  (forall api documentId notes,
      api documentId notes = Rejected e ->
      addFavorite api documentId notes state = (state, Rejected e))
  /\ (forall api documentId,
      api documentId = Rejected e ->
      removeFavorite api documentId state = (state, Rejected e)).
Proof.
  split.
  - intros api documentId notes H. unfold addFavorite. by rewrite H.
  - intros api documentId H. unfold removeFavorite. by rewrite H.
Qed.

Lemma favorites_failure_untouched_witness :
  let state := mkDocumentsState ∅ ["doc-1"] false None in
  let e := mkCaught (Some "HTTP 401: Unauthorized") in
  addFavorite (fun _ _ => Rejected e) "doc-2" None state = (state, Rejected e)
  /\ removeFavorite (fun _ => Rejected e) "doc-1" state = (state, Rejected e).
Proof.
  intros state e.
  destruct (favorites_failure_untouched state e) as [Hadd Hrm].
  split; [apply Hadd | apply Hrm]; reflexivity.
Defined.

Lemma filter_absent (documentId : string) (l : list string) :
  documentId ∉ l -> filter (fun id => id <> documentId) l = l.
Proof.
  induction l as [|x l IH]; intros Hnotin; [reflexivity|].
  rewrite filter_cons. apply not_elem_of_cons in Hnotin as [Hne Hrest].
  rewrite decide_True by congruence. f_equal. by apply IH.
Qed.

(** X11. Removing a favorite after adding it gives back the list of before when
    the document was not a favorite yet; when it was one already, its
    earlier entries go as well, and in both cases the other favorites keep
    their order. *)
Theorem addFavorite_undone
    (api_add : string -> option string -> settled unit)
    (api_remove : string -> settled unit)
    (documentId : string) (notes : option string)
    (state added removed : DocumentsState) :
  addFavorite api_add documentId notes state = (added, Fulfilled tt) ->
  removeFavorite api_remove documentId added = (removed, Fulfilled tt) ->
  favorites removed = filter (fun id => id <> documentId) (favorites state)
  /\ (documentId ∉ favorites state -> removed = state).
Proof.
  intros Hadd Hrm.
  apply addFavorite_fulfilled in Hadd. apply removeFavorite_fulfilled in Hrm.
  subst removed added. simpl.
  assert (Hfilter : filter (fun id => id <> documentId) (favorites state ++ [documentId])
                    = filter (fun id => id <> documentId) (favorites state)).
  { rewrite filter_app, filter_cons, decide_False by (intros H; by apply H).
    rewrite filter_nil. apply app_nil_r. }
  split; [exact Hfilter|].
  intros Hnotin. rewrite Hfilter, filter_absent by exact Hnotin.
  by destruct state.
Qed.

Lemma addFavorite_undone_witness :
  let state := mkDocumentsState ∅ ["doc-1"; "doc-2"] false None in
  let added := fst (addFavorite (fun _ _ => Fulfilled tt) "doc-3" None state) in
  let removed := fst (removeFavorite always_ok "doc-3" added) in
  addFavorite (fun _ _ => Fulfilled tt) "doc-3" None state = (added, Fulfilled tt)
  /\ removeFavorite always_ok "doc-3" added = (removed, Fulfilled tt)
  /\ ("doc-3" ∉ favorites state)
  /\ removed = state.
Proof.
  intros state added removed.
  assert (Hnotin : "doc-3" ∉ favorites state).
  { simpl. rewrite !not_elem_of_cons. repeat split; try discriminate.
    apply not_elem_of_nil. }
  split; [reflexivity|]. split; [reflexivity|]. split; [exact Hnotin|].
  exact (proj2 (addFavorite_undone (fun _ _ => Fulfilled tt) always_ok "doc-3" None
                  state added removed eq_refl eq_refl) Hnotin).
Defined.

End PolicyDocumentsStoreRuns.

(* ===================================================================== *)
(** ** Document viewer: the favorite toggle *)
(* ===================================================================== *)

Module DocumentViewer.

Import PolicySearchStore (caught, settled, Fulfilled, Rejected, mkCaught).
Import PolicyDocumentsStore.

Inductive toast : Type :=
| toast_success (key : string)
| toast_error (key : string).

(** [let isFavorite = false]: the flag a viewer starts with, whatever the
    store's list of favorites holds. *)
Definition isFavorite_on_mount : bool := false.

(** [toggleFavorite()]: the component's flag and the store after the click,
    and the toast shown. *)
Definition toggleFavorite
    (api_add : string -> option string -> settled unit)
    (api_remove : string -> settled unit)
    (document_id : string) (isFavorite : bool) (store : DocumentsState)
    : bool * DocumentsState * toast :=
  if isFavorite then
    match removeFavorite api_remove document_id store with
    | (store', Fulfilled _) =>
        (negb isFavorite, store', toast_success "policy.document.removed_from_favorites")
    | (store', Rejected _) =>
        (isFavorite, store', toast_error "policy.document.favorite_error")
    end
  else
    match addFavorite api_add document_id None store with
    | (store', Fulfilled _) =>
        (negb isFavorite, store', toast_success "policy.document.added_to_favorites")
    | (store', Rejected _) =>
        (isFavorite, store', toast_error "policy.document.favorite_error")
    end.

(** X12. Two clicks on the favorite button of a freshly opened viewer, both
    accepted by the API: the first appends the document (a second entry when
    it was a favorite already), the second removes every entry of it. The
    flag is back to "not a favorite", and the document is in no case a
    favorite any more, also when it was one before the viewer opened. *)
Theorem toggle_twice
    (api_add : string -> option string -> settled unit)
    (api_remove : string -> settled unit)
    (document_id : string) (store : DocumentsState) :
  api_add document_id None = Fulfilled tt ->
  api_remove document_id = Fulfilled tt ->
  let first := toggleFavorite api_add api_remove document_id isFavorite_on_mount store in
  let second := toggleFavorite api_add api_remove document_id
                  (fst (fst first)) (snd (fst first)) in
  fst (fst first) = true
  /\ favorites (snd (fst first)) = favorites store ++ [document_id]
  /\ fst (fst second) = false
  /\ favorites (snd (fst second))
     = filter (fun id => id <> document_id) (favorites store)
  /\ (document_id ∉ favorites (snd (fst second))).
Proof.
  intros Hadd Hrm first second. subst second first.
  unfold toggleFavorite, isFavorite_on_mount, addFavorite. rewrite Hadd. simpl.
  unfold removeFavorite. rewrite Hrm. simpl.
  assert (Hfilter : filter (fun id => id <> document_id) (favorites store ++ [document_id])
                    = filter (fun id => id <> document_id) (favorites store)).
  { rewrite filter_app, filter_cons, decide_False by (intros H; by apply H).
    rewrite filter_nil. apply app_nil_r. }
  rewrite Hfilter. repeat split.
  rewrite list_elem_of_filter. intros [Hne _]. by apply Hne.
Qed.

Lemma toggle_twice_witness :
  let store := mkDocumentsState ∅ ["doc-1"; "doc-2"] false None in
  let first := toggleFavorite (fun _ _ => Fulfilled tt) always_ok "doc-1"
                 isFavorite_on_mount store in
  let second := toggleFavorite (fun _ _ => Fulfilled tt) always_ok "doc-1"
                  (fst (fst first)) (snd (fst first)) in
  favorites (snd (fst first)) = ["doc-1"; "doc-2"; "doc-1"]
  /\ favorites (snd (fst second)) = ["doc-2"]
  /\ fst (fst second) = false.
Proof.
  intros store first second.
  pose proof (toggle_twice (fun _ _ => Fulfilled tt) always_ok "doc-1" store
                eq_refl eq_refl) as (_ & H1 & Hflag & H2 & _).
  split; [exact H1|]. split; [exact H2 | exact Hflag].
Defined.

(** X13. A click whose API call is rejected -- [removeFavorite] for a
    document shown as favorite, [addFavorite] otherwise; the other call is
    not made -- changes neither the flag nor the store, and shows the error
    toast. *)
Theorem toggle_rejected
    (api_add : string -> option string -> settled unit)
    (api_remove : string -> settled unit)
    (document_id : string) (isFavorite : bool) (store : DocumentsState)
    (e : caught) :
  (if isFavorite then api_remove document_id else api_add document_id None)
  = Rejected e ->
  toggleFavorite api_add api_remove document_id isFavorite store
  = (isFavorite, store, toast_error "policy.document.favorite_error").
Proof.
  intros Hcall. unfold toggleFavorite, addFavorite, removeFavorite.
  destruct isFavorite; by rewrite Hcall.
Qed.

Lemma toggle_rejected_witness :
  let e := mkCaught (Some "HTTP 401: Unauthorized") in
  toggleFavorite (fun _ _ => Fulfilled tt) (fun _ => Rejected e) "doc-1" true initialState
  = (true, initialState, toast_error "policy.document.favorite_error").
Proof.
  intros e.
  apply (toggle_rejected (fun _ _ => Fulfilled tt) (fun _ => Rejected e) "doc-1" true
           initialState e); reflexivity.
Defined.

End DocumentViewer.

(* ===================================================================== *)
(** ** API client: what an error response raises *)
(* ===================================================================== *)

Module PolicyApiErrors.

Import PolicyApi.

Lemma http_message_truthy (response : Response) :
  truthy (JString (http_message response)) = true.
Proof. reflexivity. Qed.

(** X14. For a response that is not 2xx, [handleResponse] never lets the parse
    failure of the body through: it raises an [Error] whose argument is
    truthy -- the [detail] of a JSON object when that is truthy (a string
    [detail] that is not empty is passed on as it is), or the status text
    of a body that is not JSON, or else the text
    ['HTTP <status>: <statusText>'] -- except for the JSON body [null], on
    which reading [detail] fails. *)
Theorem error_response_raises (response : Response) :
  ok response = false ->
  (handleResponse response <> Throws SyntaxError_json)
  /\ ((json_body response = Some JNull
       /\ handleResponse response = Throws TypeError_null_property)
      \/ (exists arg, handleResponse response = Throws (Error arg)
                      /\ truthy arg = true))
  /\ (json_body response = None ->
      handleResponse response =
      Throws (Error (JString (if String.eqb (statusText response) EmptyString
                              then http_message response
                              else statusText response))))
  /\ (forall fields,
        json_body response = Some (JObject fields) ->
        handleResponse response =
        Throws (Error (match get_field "detail" fields with
                       | Some d => if truthy d then d
                                   else JString (http_message response)
                       | None => JString (http_message response)
                       end)))
  /\ (forall fields d,
        json_body response = Some (JObject fields) ->
        get_field "detail" fields = Some (JString d) -> d <> EmptyString ->
        handleResponse response = Throws (Error (JString d))).
Proof.
  intros Hok.
  assert (Hobject : forall fields,
             json_body response = Some (JObject fields) ->
             handleResponse response =
             Throws (Error (match get_field "detail" fields with
                            | Some d => if truthy d then d
                                        else JString (http_message response)
                            | None => JString (http_message response)
                            end))).
  { intros fields Hbody. unfold handleResponse. rewrite Hok, Hbody. simpl.
    destruct (get_field "detail" fields) as [d|]; [|reflexivity].
    destruct (truthy d); reflexivity. }
  assert (Hstring : forall fields d,
             json_body response = Some (JObject fields) ->
             get_field "detail" fields = Some (JString d) -> d <> EmptyString ->
             handleResponse response = Throws (Error (JString d))).
  { intros fields d Hbody Hd Hne. rewrite (Hobject fields Hbody), Hd. simpl.
    destruct (String.eqb_spec d EmptyString); [contradiction | reflexivity]. }
  unfold handleResponse in *. rewrite Hok in *. simpl in *.
  destruct (json_body response) as [body|] eqn:Hbody.
  - split; [|split; [|split; [discriminate|split]]].
    + destruct (detail_of body) as [|[d|]]; [discriminate| |discriminate].
      destruct (truthy d); discriminate.
    + destruct body as [|b|n|s|items|fields]; simpl;
        try (right; eexists; split; [reflexivity | apply http_message_truthy]).
      * left. auto.
      * right. destruct (get_field "detail" fields) as [d|].
        -- destruct (truthy d) eqn:Hd; eexists;
             (split; [reflexivity|]); [exact Hd | apply http_message_truthy].
        -- eexists; split; [reflexivity | apply http_message_truthy].
    + exact Hobject.
    + exact Hstring.
  - simpl.
    assert (Ht : String.eqb (statusText response) EmptyString = false ->
                 truthy (JString (statusText response)) = true).
    { intros Hne. simpl. by rewrite Hne. }
    destruct (String.eqb (statusText response) EmptyString); simpl.
    + split; [discriminate|]. split; [|split; [reflexivity|split; discriminate]].
      right. eexists. split; [reflexivity | apply http_message_truthy].
    + split; [discriminate|]. split; [|split; [reflexivity|split; discriminate]].
      right. eexists. split; [reflexivity | by apply Ht].
Qed.

Lemma error_response_raises_witness :
  let gateway := mkResponse 502 "Bad Gateway" "https://govchat.example/api" false None in
  ok gateway = false
  /\ handleResponse gateway = Throws (Error (JString "Bad Gateway")).
Proof.
  intros gateway. split; [reflexivity|].
  exact (proj1 (proj2 (proj2 (error_response_raises gateway eq_refl))) eq_refl).
Defined.

End PolicyApiErrors.

(* ===================================================================== *)
(** ** [RobustScraper]: what the caller can get back *)
(* ===================================================================== *)

Module RobustScraperOutcomes.

Import RobustScraper.

Section Loop.

Variable _fetch : nat -> fetch_outcome.
Variable max_retries : Z.

Lemma attempts_loop_returned (n : nat) :
  forall first r,
    fst (attempts_loop _fetch max_retries (seq first n)) = Returned r ->
    exists attempt,
      (first <= attempt < first + n)%nat
      /\ _fetch attempt = Responded r
      /\ _is_blocked r = false
      /\ forall earlier, (first <= earlier < attempt)%nat ->
                         retryable (_fetch earlier) = true.
Proof.
  induction n as [|n IH]; intros first r H; simpl in H; [discriminate|].
  assert (Hnext : forall res ev,
             attempts_loop _fetch max_retries (seq (S first) n) = (res, ev) ->
             res = Returned r ->
             retryable (_fetch first) = true ->
             exists attempt,
               (first <= attempt < first + S n)%nat
               /\ _fetch attempt = Responded r
               /\ _is_blocked r = false
               /\ forall earlier, (first <= earlier < attempt)%nat ->
                                  retryable (_fetch earlier) = true).
  { intros res ev Hloop Hres Hfirst.
    destruct (IH (S first) r) as (attempt & Hrange & Hresp & Hnb & Hearlier).
    { by rewrite Hloop. }
    exists attempt. split; [lia|]. split; [exact Hresp|]. split; [exact Hnb|].
    intros earlier Hlt. destruct (Nat.eq_dec earlier first) as [->|Hne];
      [exact Hfirst | apply Hearlier; lia]. }
  destruct (_fetch first) as [r0|e|e] eqn:Hfetch.
  - destruct (_is_blocked r0) eqn:Hblocked.
    + destruct (attempts_loop _fetch max_retries (seq (S first) n)) as [res ev] eqn:Hloop.
      simpl in H. eapply Hnext; eauto.
    + simpl in H. injection H as <-. exists first.
      split; [lia|]. split; [exact Hfetch|]. split; [exact Hblocked|].
      intros earlier Hlt. lia.
  - destruct (Z.of_nat first =? max_retries - 1); [discriminate|].
    destruct (attempts_loop _fetch max_retries (seq (S first) n)) as [res ev] eqn:Hloop.
    simpl in H. eapply Hnext; eauto.
  - discriminate.
Qed.

Lemma attempts_loop_none (n : nat) :
  forall first,
    (1 <= n)%nat ->
    Z.of_nat (first + n) = max_retries ->
    fst (attempts_loop _fetch max_retries (seq first n)) = ReturnedNone ->
    exists r, _fetch (first + n - 1)%nat = Responded r /\ _is_blocked r = true.
Proof.
  induction n as [|n IH]; intros first Hn Hmax H; [lia|]. simpl in H.
  destruct (_fetch first) as [r0|e|e] eqn:Hfetch.
  - destruct (_is_blocked r0) eqn:Hblocked; [|discriminate].
    destruct n as [|n].
    + exists r0. replace (first + 1 - 1)%nat with first by lia. auto.
    + destruct (attempts_loop _fetch max_retries (seq (S first) (S n))) as [res ev] eqn:Hloop.
      simpl in H. subst res.
      destruct (IH (S first)) as (r & Hr & Hb); [lia | lia | by rewrite Hloop |].
      exists r. replace (first + S (S n) - 1)%nat with (S first + S n - 1)%nat by lia. auto.
  - destruct (Z.eqb_spec (Z.of_nat first) (max_retries - 1)) as [|Hmore]; [discriminate|].
    destruct n as [|n]; [lia|].
    destruct (attempts_loop _fetch max_retries (seq (S first) (S n))) as [res ev] eqn:Hloop.
    simpl in H. subst res.
    destruct (IH (S first)) as (r & Hr & Hb); [lia | lia | by rewrite Hloop |].
    exists r. replace (first + S (S n) - 1)%nat with (S first + S n - 1)%nat by lia. auto.
  - discriminate.
Qed.

End Loop.

(** X15. [scrape_with_retry] never hands a blocked response to its caller: a
    response that is returned was received by one of the [max_retries]
    attempts, is not blocked, and every attempt before it ended blocked or
    in a network error. *)
Theorem returned_is_not_blocked (_fetch : nat -> fetch_outcome) (max_retries : Z)
    (r : response) :
  fst (scrape_with_retry _fetch max_retries) = Returned r ->
  exists attempt,
    (attempt < Z.to_nat max_retries)%nat
    /\ _fetch attempt = Responded r
    /\ _is_blocked r = false
    /\ forall earlier, (earlier < attempt)%nat -> retryable (_fetch earlier) = true.
Proof.
  intros H. apply attempts_loop_returned in H.
  destruct H as (attempt & Hrange & Hresp & Hnb & Hearlier).
  exists attempt. split; [lia|]. split; [exact Hresp|]. split; [exact Hnb|].
  intros earlier Hlt. apply Hearlier. lia.
Qed.

Definition blocked_then_ok (attempt : nat) : fetch_outcome :=
  match attempt with
  | O => Responded (mkResponse 429 "/search")
  | _ => Responded (mkResponse 200 "/search")
  end.

Lemma returned_is_not_blocked_witness :
  fst (scrape_with_retry blocked_then_ok 3) = Returned (mkResponse 200 "/search")
  /\ exists attempt,
       (attempt < 3)%nat
       /\ blocked_then_ok attempt = Responded (mkResponse 200 "/search")
       /\ _is_blocked (mkResponse 200 "/search") = false.
Proof.
  split; [reflexivity|].
  destruct (returned_is_not_blocked blocked_then_ok 3 (mkResponse 200 "/search") eq_refl)
    as (attempt & Hlt & Hresp & Hnb & _).
  exists attempt. auto.
Defined.

(** X16. The call returns nothing (Python's [None], without raising) in two
    cases only: no attempt was allowed at all ([max_retries <= 0]), or the
    last attempt was answered by a blocked response. *)
Theorem none_means_blocked (_fetch : nat -> fetch_outcome) (max_retries : Z) :
  (max_retries <= 0 -> scrape_with_retry _fetch max_retries = (ReturnedNone, []))
  /\ (1 <= max_retries ->
      fst (scrape_with_retry _fetch max_retries) = ReturnedNone ->
      exists r, _fetch (Z.to_nat max_retries - 1)%nat = Responded r
                /\ _is_blocked r = true).
Proof.
  split.
  - intros Hle. unfold scrape_with_retry.
    replace (Z.to_nat max_retries) with O by lia. reflexivity.
  - intros Hge H.
    apply (attempts_loop_none _fetch max_retries (Z.to_nat max_retries) O) in H;
      [exact H | lia | lia].
Qed.

Lemma none_means_blocked_witness :
  scrape_with_retry (always (mkResponse 403 "/search")) 0 = (ReturnedNone, [])
  /\ (1 <= 3
      /\ fst (scrape_with_retry (always (mkResponse 403 "/search")) 3) = ReturnedNone
      /\ exists r, always (mkResponse 403 "/search") 2%nat = Responded r
                   /\ _is_blocked r = true).
Proof.
  destruct (none_means_blocked (always (mkResponse 403 "/search")) 0) as [Hzero _].
  destruct (none_means_blocked (always (mkResponse 403 "/search")) 3) as [_ Hlast].
  split; [apply Hzero; lia|].
  split; [lia|]. split; [reflexivity|].
  apply Hlast; [lia | reflexivity].
Defined.

End RobustScraperOutcomes.

(* ===================================================================== *)
(** ** [GemeentebladScraper.discover_documents] (architecture document) *)
(* ===================================================================== *)

Module GemeentebladDiscovery.

Import Listing.

(** How one [session.get(url, params={'page': page, ...})] ends: with an
    answer of some status, whose body the result selectors are run on, or
    with an exception of the HTTP client. *)
Inductive http_result : Type :=
| Answered (status : Z) (items : list listing_item)
| Failed (e : python_exception).

Section Plugin.

Variable base_url : string.
Variable config_municipality : option string.
Variable strip : string -> string.
Variable urljoin : string -> string -> string.
Variable _extract_id : string -> string.
Variable _parse_date : option string -> option date.

(** The answer to the [request]-th request (counted from 0) when it asks
    for page [page]. *)
Variable serve : nat -> Z -> http_result.

Local Abbreviation _parse_search_results :=
  (GemeentebladScraper._parse_search_results base_url config_municipality strip
     urljoin _extract_id _parse_date).

(** The [while True] loop: the result, and the number of requests made;
    [None] when [fuel] iterations did not leave the loop. A 429 answer
    sleeps and asks for the same page again; an exception of [session.get]
    or of the parser is not caught. *)
Fixpoint discover_loop (fuel : nat) (request : nat) (page : Z)
    (documents : list DocumentMetadata)
    : option (result (list DocumentMetadata) * nat) :=
  match fuel with
  | O => None
  | S fuel' =>
      match serve request page with
      | Failed e => Some (Raise e, S request)
      | Answered status items =>
          if status =? 429 then discover_loop fuel' (S request) page documents
          else
            match _parse_search_results items with
            | Raise e => Some (Raise e, S request)
            | Return [] => Some (Return documents, S request)
            | Return docs =>
                discover_loop fuel' (S request) (page + 1) (documents ++ docs)
            end
      end
  end.

Definition discover_documents (fuel : nat)
    : option (result (list DocumentMetadata) * nat) :=
  discover_loop fuel O 1 [].

Lemma discover_loop_step (fuel request : nat) (page : Z)
    (documents : list DocumentMetadata) :
  discover_loop (S fuel) request page documents =
  match serve request page with
  | Failed e => Some (Raise e, S request)
  | Answered status items =>
      if status =? 429 then discover_loop fuel (S request) page documents
      else
        match _parse_search_results items with
        | Raise e => Some (Raise e, S request)
        | Return [] => Some (Return documents, S request)
        | Return docs => discover_loop fuel (S request) (page + 1) (documents ++ docs)
        end
  end.
Proof. reflexivity. Qed.

Lemma rate_limited_loop (fuel : nat) :
  (forall request, exists items, serve request 1 = Answered 429 items) ->
  forall request documents, discover_loop fuel request 1 documents = None.
Proof.
  intros Hlimited. induction fuel as [|fuel IH]; intros request documents;
    [reflexivity|].
  simpl. destruct (Hlimited request) as [items ->]. simpl. apply IH.
Qed.

(** X17. Discovery has no bound on the tries for one page: against a source that
    answers 429 to every request for page 1, no number of iterations lets
    [discover_documents] return. *)
Theorem rate_limited_forever :
  (forall request, exists items, serve request 1 = Answered 429 items) ->
  forall fuel, discover_documents fuel = None.
Proof.
  intros Hlimited fuel. unfold discover_documents. by apply rate_limited_loop.
Qed.

Lemma discover_loop_returns (fuel : nat) :
  forall request page documents docs n,
    discover_loop fuel request page documents = Some (Return docs, n) ->
    docs = documents.
Proof.
  induction fuel as [|fuel IH]; intros request page documents docs n H;
    [discriminate|].
  rewrite discover_loop_step in H.
  destruct (serve request page) as [status items|e]; [|discriminate].
  destruct (status =? 429); [by eapply IH|].
  destruct (_parse_search_results items) as [[|d ds]|e] eqn:Hparse.
  - congruence.
  - apply GemeentebladScraper.parse_items_returns in Hparse. discriminate.
  - discriminate.
Qed.

Lemma discover_loop_limited (k : nat) :
  forall fuel request page documents,
    (forall r, (request <= r < request + k)%nat ->
               exists items, serve r page = Answered 429 items) ->
    discover_loop (k + fuel) request page documents
    = discover_loop fuel (request + k) page documents.
Proof.
  induction k as [|k IH]; intros fuel request page documents Hlimited.
  - by replace (request + 0)%nat with request by lia.
  - change (S k + fuel)%nat with (S (k + fuel)). rewrite discover_loop_step.
    destruct (Hlimited request ltac:(lia)) as [items ->].
    change (429 =? 429) with true. cbv iota.
    rewrite IH by (intros r Hr; apply Hlimited; lia).
    f_equal. lia.
Qed.

(** X18. [discover_documents] never returns a document.  Whatever the source
    answers, a run that returns returns the empty list; and the first answer
    that is not a 429 ends the run, with the exception of the parser when
    the page has an item with both elements, with the empty list
    otherwise. *)
Theorem discovery_returns_no_document :
  (forall fuel docs n,
      discover_documents fuel = Some (Return docs, n) -> docs = [])
  /\ (forall k fuel status items,
        (forall r, (r < k)%nat -> exists limited, serve r 1 = Answered 429 limited) ->
        serve k 1 = Answered status items -> status <> 429 ->
        discover_documents (k + S fuel)
        = Some (match List.find GemeentebladScraper.complete items with
                | Some item => Raise (GemeentebladScraper.raised_by item)
                | None => Return []
                end, S k)).
Proof.
  split.
  - intros fuel docs n H. by apply discover_loop_returns in H.
  - intros k fuel status items Hlimited Hserve Hstatus. unfold discover_documents.
    rewrite discover_loop_limited by (intros r Hr; apply Hlimited; lia).
    rewrite discover_loop_step. cbn [Nat.add]. rewrite Hserve.
    destruct (Z.eqb_spec status 429) as [|_]; [contradiction|].
    unfold GemeentebladScraper._parse_search_results.
    rewrite GemeentebladScraper.parse_items_find.
    destruct (List.find GemeentebladScraper.complete items); reflexivity.
Qed.

(** X19. [_parse_search_results] never returns a candidate: the page ends at
    its first item that has both a title and a url element, with [KeyError]
    when the anchor has no [href] and with [ValidationError] otherwise (the
    [DocumentMetadata] is built without the required [metadata]); a page
    without such an item gives the empty list. *)
Theorem parse_returns_no_candidate (html : list listing_item) :
  _parse_search_results html
  = match List.find GemeentebladScraper.complete html with
    | Some item => Raise (GemeentebladScraper.raised_by item)
    | None => Return []
    end
  /\ (forall docs, _parse_search_results html = Return docs -> docs = []).
Proof.
  split.
  - apply GemeentebladScraper.parse_items_find.
  - intros docs. apply GemeentebladScraper.parse_items_returns.
Qed.

End Plugin.

(** A source that is rate limited throughout, and one that is rate limited
    once and then answers with a page of one complete item. *)
Definition always_limited (request : nat) (page : Z) : http_result :=
  Answered 429 [].

Definition limited_once (request : nat) (page : Z) : http_result :=
  match request with
  | O => Answered 429 []
  | _ => Answered 200 [GemeentebladScraper.good_item "Verordening A" "/doc/1"]
  end.

Local Abbreviation on_plain_config f :=
  (f "https://gemeentebladen.example" (Some "Amsterdam") (fun s : string => s)
     String.append (fun s : string => s) (fun _ : option string => @None date)).

Lemma rate_limited_forever_witness :
  (forall request, exists items, always_limited request 1 = Answered 429 items)
  /\ on_plain_config discover_documents always_limited 1000%nat = None.
Proof.
  assert (H : forall request, exists items, always_limited request 1 = Answered 429 items)
    by (intros request; exists []; reflexivity).
  split; [exact H|].
  apply (rate_limited_forever "https://gemeentebladen.example" (Some "Amsterdam")
           (fun s : string => s) String.append (fun s : string => s)
           (fun _ : option string => @None date) always_limited H).
Defined.

Lemma discovery_returns_no_document_witness :
  on_plain_config discover_documents limited_once 5%nat
  = Some (Raise (ValidationError "metadata"), 2%nat).
Proof.
  apply (proj2 (discovery_returns_no_document
                  "https://gemeentebladen.example" (Some "Amsterdam")
                  (fun s : string => s) String.append (fun s : string => s)
                  (fun _ : option string => @None date) limited_once)
           1%nat 3%nat 200
           [GemeentebladScraper.good_item "Verordening A" "/doc/1"]).
  - intros r Hr. assert (r = O) as -> by lia. by exists [].
  - reflexivity.
  - lia.
Defined.

Lemma parse_returns_no_candidate_witness :
  on_plain_config GemeentebladScraper._parse_search_results
    [GemeentebladScraper.item_without_title "/doc/2";
     GemeentebladScraper.good_item "Verordening C" "/doc/3"]
  <> Return []
  /\ forall docs,
       on_plain_config GemeentebladScraper._parse_search_results
         [GemeentebladScraper.item_without_title "/doc/2";
          GemeentebladScraper.good_item "Verordening C" "/doc/3"]
       = Return docs -> docs = [].
Proof.
  split; [discriminate|].
  apply (parse_returns_no_candidate "https://gemeentebladen.example" (Some "Amsterdam")
           (fun s : string => s) String.append (fun s : string => s)
           (fun _ : option string => @None date)).
Defined.

End GemeentebladDiscovery.

(* ===================================================================== *)
(** ** [MySourcePlugin]: what a discovered document is, and how far
       discovery goes *)
(* ===================================================================== *)

Module MySourcePluginFacts.

Import Listing.
Import MySourcePlugin.

Section Plugin.

Variable base_url : string.
Variable has_date_selector : bool.
Variable strip : string -> string.
Variable normalize_url : string -> string -> result string.
Variable generate_external_id_hash : string -> result string.
Variable validate_date : string -> result (option date).

Local Abbreviation _parse_item :=
  (MySourcePlugin._parse_item base_url has_date_selector strip normalize_url
     generate_external_id_hash validate_date).

Local Abbreviation discover_documents :=
  (MySourcePlugin.discover_documents base_url has_date_selector strip normalize_url
     generate_external_id_hash validate_date).

Lemma _parse_item_document (item : listing_item) (doc : DocumentMetadata) :
  _parse_item item = Return (Some doc) ->
  exists title_el url_el link,
    title_elem item = Some title_el /\ title doc = strip (text title_el)
    /\ title doc <> EmptyString
    /\ url_elem item = Some url_el /\ href url_el = Some link /\ link <> EmptyString
    /\ normalize_url link base_url = Return (url doc)
    /\ generate_external_id_hash (url doc) = Return (external_id doc).
Proof.
  unfold MySourcePlugin._parse_item. intros H.
  destruct (title_elem item) as [title_el|]; [|discriminate].
  destruct (String.eqb_spec (strip (text title_el)) EmptyString) as [|Htitle];
    [discriminate|].
  destruct (url_elem item) as [url_el|]; [|discriminate].
  destruct (href url_el) as [link|] eqn:Hhref; [|discriminate].
  destruct (String.eqb_spec link EmptyString) as [|Hlink]; [discriminate|].
  destruct (normalize_url link base_url) as [url_|e] eqn:Hurl; [|discriminate].
  destruct (generate_external_id_hash url_) as [external_id_|e] eqn:Hid; [|discriminate].
  injection H as <-. simpl.
  exists title_el, url_el, link.
  split; [reflexivity|]. split; [reflexivity|]. split; [exact Htitle|].
  split; [reflexivity|]. split; [exact Hhref|]. split; [exact Hlink|].
  split; [exact Hurl | exact Hid].
Qed.

Local Abbreviation _parse_search_results :=
  (MySourcePlugin._parse_search_results base_url has_date_selector strip
     normalize_url generate_external_id_hash validate_date).

(** What one item contributes to the page's result. *)
Definition extracted (item : listing_item) : option DocumentMetadata :=
  match _parse_item item with
  | Return (Some doc) => Some doc
  | _ => None
  end.

(** X20. [_parse_search_results] never raises and isolates every item: its
    result is, in page order, the documents of the items that
    [_parse_item] can extract.  An item that raises or lacks a required
    part contributes nothing and costs no other item its document, wherever
    on the page it stands. *)
Theorem items_isolated (html : list listing_item) :
  _parse_search_results html = omap extracted html
  /\ (forall before after bad,
        html = before ++ bad :: after ->
        (forall doc, _parse_item bad <> Return (Some doc)) ->
        _parse_search_results html
        = _parse_search_results before ++ _parse_search_results after).
Proof.
  assert (Hall : forall items, _parse_search_results items = omap extracted items).
  { induction items as [|item rest IH]; [reflexivity|].
    unfold MySourcePlugin._parse_search_results in *. simpl.
    destruct (MySourcePlugin.parse_items _ _ _ _ _ _ rest) as [d w].
    simpl in IH. subst d. unfold extracted.
    destruct (_parse_item item) as [[doc|]|e]; reflexivity. }
  split; [apply Hall|].
  intros before after bad -> Hbad.
  rewrite !Hall, omap_app. f_equal. simpl.
  unfold extracted.
  destruct (_parse_item bad) as [[doc|]|e]; [|reflexivity|reflexivity].
  exfalso. exact (Hbad doc eq_refl).
Qed.

(** X21. A document that [_parse_item] returns has a non-empty title, its URL is
    the normalised link of the item and its external id is derived from
    that URL alone: two items with the same link get the same URL and the
    same external id, whatever their titles and dates. *)
Theorem same_link_same_id (item1 item2 : listing_item) (doc1 doc2 : DocumentMetadata) :
  _parse_item item1 = Return (Some doc1) ->
  _parse_item item2 = Return (Some doc2) ->
  (url_elem item1 ≫= href) = (url_elem item2 ≫= href) ->
  title doc1 <> EmptyString /\ title doc2 <> EmptyString
  /\ url doc1 = url doc2 /\ external_id doc1 = external_id doc2.
Proof.
  intros H1 H2 Hlink.
  apply _parse_item_document in H1
    as (t1 & u1 & l1 & _ & _ & Ht1 & Hu1 & Hl1 & _ & Hn1 & Hid1).
  apply _parse_item_document in H2
    as (t2 & u2 & l2 & _ & _ & Ht2 & Hu2 & Hl2 & _ & Hn2 & Hid2).
  rewrite Hu1, Hu2 in Hlink. simpl in Hlink. rewrite Hl1, Hl2 in Hlink.
  injection Hlink as ->.
  assert (Hurl : url doc1 = url doc2) by congruence.
  split; [exact Ht1|]. split; [exact Ht2|]. split; [exact Hurl|].
  rewrite Hurl in Hid1. congruence.
Qed.

Variable listing : Z -> page_fetch.

(** X22. With a limit of [m > 0] pages, [discover_documents] fetches the pages
    1, 2, ... in order and never more than [m] of them. *)
Theorem fetches_within_limit (m : Z) (fuel : nat)
    (docs : list DocumentMetadata) (fetched : list Z) :
  0 < m ->
  discover_documents listing (Some m) fuel = Some (docs, fetched) ->
  fetched = seqZ 1 (Z.of_nat (length fetched))
  /\ Z.of_nat (length fetched) <= m.
Proof.
  intros Hm H. unfold MySourcePlugin.discover_documents in H.
  apply MySourcePlugin.discover_loop_spec in H.
  destruct H as (j & Hall & _ & Hend).
  assert (Hj : Z.of_nat j <= m).
  { destruct (Z_le_gt_dec (Z.of_nat j) m) as [|Hgt]; [assumption|].
    destruct (Hall (m + 1) ltac:(lia)) as [Hlim _].
    unfold over_limit in Hlim.
    destruct (Z.eqb_spec m 0); [lia|]. simpl in Hlim.
    rewrite Z.gtb_ltb in Hlim. apply Z.ltb_ge in Hlim. lia. }
  destruct Hend as [(_ & ->)|(Hin & _ & ->)]; simpl; rewrite length_seqZ.
  - split; [f_equal; lia | lia].
  - assert (Z.of_nat j + 1 <= m).
    { unfold over_limit in Hin. destruct (Z.eqb_spec m 0); [lia|]. simpl in Hin.
      rewrite Z.gtb_ltb in Hin. apply Z.ltb_ge in Hin. lia. }
    split; [f_equal; lia | lia].
Qed.

End Plugin.

Local Abbreviation on_plain_source f :=
  (f "https://example.com" true (fun s : string => s) plain_normalize_url
     plain_hash plain_validate_date).

Definition renamed_item : listing_item :=
  mkItem (Some (mkElement "Verordening (gewijzigd)" None))
         (Some (mkElement "PDF" (Some "/doc/1"))) (Some (mkElement "2025-01-15" None)).

Lemma same_link_same_id_witness :
  exists doc1 doc2,
    on_plain_source _parse_item one_item = Return (Some doc1)
    /\ on_plain_source _parse_item renamed_item = Return (Some doc2)
    /\ title doc1 <> title doc2
    /\ external_id doc1 = external_id doc2.
Proof.
  do 2 eexists. split; [reflexivity|]. split; [reflexivity|].
  split; [discriminate|].
  eapply (same_link_same_id "https://example.com" true (fun s : string => s)
            plain_normalize_url plain_hash plain_validate_date one_item renamed_item);
    reflexivity.
Defined.

Lemma fetches_within_limit_witness :
  0 < 2
  /\ on_plain_source MySourcePlugin.discover_documents endless_listing (Some 2) 5%nat
     = Some ([one_document; one_document], [1; 2])
  /\ Z.of_nat (length [1; 2]) <= 2.
Proof.
  split; [lia|]. split; [reflexivity|].
  exact (proj2 (fetches_within_limit "https://example.com" true (fun s : string => s)
                  plain_normalize_url plain_hash plain_validate_date endless_listing
                  2 5%nat [one_document; one_document] [1; 2] ltac:(lia) eq_refl)).
Defined.

(** One item whose validator raises, between two good items. *)
Definition raising_normalize_url (link base : string) : result string :=
  if String.eqb link "/broken" then Raise (Exception "invalid URL")
  else Return (base +:+ link).

Definition broken_item : listing_item :=
  mkItem (Some (mkElement "Besluit" None))
         (Some (mkElement "Download" (Some "/broken"))) None.

Lemma items_isolated_witness :
  (forall doc,
     MySourcePlugin._parse_item "https://example.com" true (fun s : string => s)
       raising_normalize_url plain_hash plain_validate_date broken_item
     <> Return (Some doc))
  /\ MySourcePlugin._parse_search_results "https://example.com" true
       (fun s : string => s) raising_normalize_url plain_hash plain_validate_date
       ([one_item] ++ broken_item :: [renamed_item])
     = MySourcePlugin._parse_search_results "https://example.com" true
         (fun s : string => s) raising_normalize_url plain_hash plain_validate_date
         [one_item]
       ++ MySourcePlugin._parse_search_results "https://example.com" true
            (fun s : string => s) raising_normalize_url plain_hash plain_validate_date
            [renamed_item].
Proof.
  assert (Hbad : forall doc,
             MySourcePlugin._parse_item "https://example.com" true (fun s : string => s)
               raising_normalize_url plain_hash plain_validate_date broken_item
             <> Return (Some doc)) by (intros doc; discriminate).
  split; [exact Hbad|].
  apply (proj2 (items_isolated "https://example.com" true
                  (fun s : string => s) raising_normalize_url plain_hash
                  plain_validate_date ([one_item] ++ broken_item :: [renamed_item]))
           [one_item] [renamed_item] broken_item eq_refl Hbad).
Defined.

End MySourcePluginFacts.

(* ===================================================================== *)
(** ** [MySourcePlugin._build_search_url] *)
(* ===================================================================== *)

Module MySourceSearchUrl.

Import Listing.

(** [sep.join(parts)] *)
Fixpoint join (sep : string) (parts : list string) : string :=
  match parts with
  | [] => EmptyString
  | [part] => part
  | part :: rest => part +:+ sep +:+ join sep rest
  end.

(** The parameters added for [**kwargs], here with string values:
    [if value: params.append(f"{key}={value}")]. *)
Definition kwarg_params (kwargs : list (string * string)) : list string :=
  omap (fun kw => if String.eqb (snd kw) EmptyString then None
                  else Some (fst kw +:+ "=" +:+ snd kw)) kwargs.

Section Url.

Variable base_url : string.
(** [date.isoformat()] *)
Variable isoformat : date -> string.

(** The parameters appended after the page parameter. *)
Definition other_params (start_date end_date : option date)
    (kwargs : list (string * string)) : list string :=
  match start_date with Some d => ["from=" +:+ isoformat d] | None => [] end
  ++ match end_date with Some d => ["to=" +:+ isoformat d] | None => [] end
  ++ kwarg_params kwargs.

Definition search_params (page : Z) (start_date end_date : option date)
    (kwargs : list (string * string)) : list string :=
  (if page >? 1 then ["page=" +:+ pretty page] else [])
  ++ other_params start_date end_date kwargs.

Definition _build_search_url (page : Z) (start_date end_date : option date)
    (kwargs : list (string * string)) : string :=
  let url := base_url +:+ "/search" in
  match search_params page start_date end_date kwargs with
  | [] => url
  | params => url +:+ "?" +:+ join "&" params
  end.

(** What follows the first parameter of a query string. *)
Definition more (rest : list string) : string :=
  match rest with
  | [] => EmptyString
  | _ => "&" +:+ join "&" rest
  end.

(** What follows [base_url/search]. *)
Definition query_string (page : Z) (rest : list string) : string :=
  if page >? 1 then "?" +:+ (("page=" +:+ pretty page) +:+ more rest)
  else match rest with
       | [] => EmptyString
       | _ => "?" +:+ join "&" rest
       end.

Lemma app_cons a (s1 s2 : string) : String a s1 +:+ s2 = String a (s1 +:+ s2).
Proof. reflexivity. Qed.

Lemma app_empty_r (s : string) : s +:+ EmptyString = s.
Proof. induction s as [|a s IH]; [reflexivity|]. rewrite app_cons. by rewrite IH. Qed.

Lemma length_app (s1 s2 : string) :
  String.length (s1 +:+ s2) = (String.length s1 + String.length s2)%nat.
Proof.
  induction s1 as [|a s1 IH]; [reflexivity|].
  rewrite app_cons. simpl. by rewrite IH.
Qed.

Lemma app_inv_tail (s1 : string) : forall s2 t, s1 +:+ t = s2 +:+ t -> s1 = s2.
Proof.
  induction s1 as [|a s1 IH]; intros [|b s2] t H; try reflexivity.
  - apply (f_equal String.length) in H. rewrite !length_app in H. simpl in H. lia.
  - apply (f_equal String.length) in H. rewrite !length_app in H. simpl in H. lia.
  - rewrite !app_cons in H. injection H as -> H. f_equal. eauto.
Qed.

Lemma join_first (part : string) (rest : list string) :
  join "&" (part :: rest) = part +:+ more rest.
Proof.
  destruct rest as [|next rest]; simpl; [|reflexivity].
  by rewrite app_empty_r.
Qed.

Lemma _build_search_url_shape (page : Z) (start_date end_date : option date)
    (kwargs : list (string * string)) :
  _build_search_url page start_date end_date kwargs =
  (base_url +:+ "/search") +:+ query_string page (other_params start_date end_date kwargs).
Proof.
  unfold _build_search_url, search_params, query_string.
  destruct (page >? 1).
  - cbn [app]. by rewrite join_first.
  - cbn [app]. destruct (other_params start_date end_date kwargs);
      [by rewrite app_empty_r | reflexivity].
Qed.

(** X23. Two different pages of the listing are never asked for under the same
    URL, whatever dates and extra parameters the search carries; the URL of
    page 1 is the search URL with the date and extra parameters only, no
    [page] parameter is written for it, and the URL of a later page starts
    its query string with [page=<page>]. *)
Theorem distinct_pages_distinct_urls (page page' : Z)
    (start_date end_date : option date) (kwargs : list (string * string)) :
  1 <= page -> 1 <= page' -> page <> page' ->
  _build_search_url page start_date end_date kwargs
  <> _build_search_url page' start_date end_date kwargs
  /\ _build_search_url 1 start_date end_date kwargs
     = (base_url +:+ "/search")
       +:+ match other_params start_date end_date kwargs with
           | [] => EmptyString
           | rest => "?" +:+ join "&" rest
           end
  /\ (1 < page ->
      _build_search_url page start_date end_date kwargs
      = (base_url +:+ "/search")
        +:+ ("?" +:+ (("page=" +:+ pretty page)
                      +:+ more (other_params start_date end_date kwargs)))).
Proof.
  intros Hp Hq Hne. split; [|split].
  - intros Heq. rewrite !_build_search_url_shape in Heq.
    apply (inj (String.app _)) in Heq. unfold query_string in Heq.
    set (rest := other_params start_date end_date kwargs) in *.
    rewrite !Z.gtb_ltb in Heq.
    destruct (Z.ltb_spec 1 page), (Z.ltb_spec 1 page'); [| | |lia].
    + apply (inj (String.app "?")) in Heq. apply app_inv_tail in Heq.
      apply (inj (String.app "page=")) in Heq. apply (inj pretty) in Heq. contradiction.
    + apply (f_equal String.length) in Heq. rewrite !length_app in Heq.
      destruct rest as [|part rest']; simpl in Heq; [lia|].
      rewrite !length_app in Heq. simpl in Heq. lia.
    + apply (f_equal String.length) in Heq. rewrite !length_app in Heq.
      destruct rest as [|part rest']; simpl in Heq; [lia|].
      rewrite !length_app in Heq. simpl in Heq. lia.
  - rewrite _build_search_url_shape. unfold query_string.
    change (1 >? 1) with false. cbv iota.
    by destruct (other_params start_date end_date kwargs).
  - intros Hlater. rewrite _build_search_url_shape. unfold query_string.
    rewrite Z.gtb_ltb. destruct (Z.ltb_spec 1 page); [reflexivity | lia].
Qed.

(** Pages below 2 all share the URL of the first page. *)
Lemma first_page_url (page : Z) (start_date end_date : option date)
    (kwargs : list (string * string)) :
  page <= 1 ->
  _build_search_url page start_date end_date kwargs
  = _build_search_url 1 start_date end_date kwargs.
Proof.
  intros Hp. unfold _build_search_url, search_params.
  rewrite Z.gtb_ltb. destruct (Z.ltb_spec 1 page); [lia | reflexivity].
Qed.

End Url.

(** A stand-in for [isoformat] (no zero padding). *)
Definition plain_isoformat (d : date) : string :=
  pretty (year d) +:+ "-" +:+ pretty (month d) +:+ "-" +:+ pretty (day d).

Example second_page_url :
  _build_search_url "https://example.com" plain_isoformat 2 None None
    [("municipality", "Amsterdam"); ("category", EmptyString)]
  = "https://example.com/search?page=2&municipality=Amsterdam".
Proof. vm_compute. reflexivity. Qed.

Lemma distinct_pages_distinct_urls_witness :
  _build_search_url "https://example.com" plain_isoformat 2 None None []
  <> _build_search_url "https://example.com" plain_isoformat 1 None None []
  /\ _build_search_url "https://example.com" plain_isoformat 1 None None []
     = "https://example.com/search"
  /\ _build_search_url "https://example.com" plain_isoformat 2 None None []
     = "https://example.com/search?page=2".
Proof.
  destruct (distinct_pages_distinct_urls "https://example.com" plain_isoformat 2 1
              None None []) as (Hne & Hfirst & Hlater); [lia | lia | lia |].
  split; [exact Hne|]. split; [exact Hfirst|]. apply Hlater. lia.
Defined.

End MySourceSearchUrl.

(* ===================================================================== *)
(** ** The search page: its URL, its [load] function and its events *)
(* ===================================================================== *)

Module URLSearchParams.

(** The entries of a [URLSearchParams] object, in order. *)
Abbreviation t := (list (string * string)).

Fixpoint get (name : string) (entries : t) : option string :=
  match entries with
  | [] => None
  | (k, v) :: rest => if String.eqb k name then Some v else get name rest
  end.

Fixpoint getAll (name : string) (entries : t) : list string :=
  match entries with
  | [] => []
  | (k, v) :: rest =>
      if String.eqb k name then v :: getAll name rest else getAll name rest
  end.

Definition append (name value : string) (entries : t) : t :=
  entries ++ [(name, value)].

Fixpoint delete (name : string) (entries : t) : t :=
  match entries with
  | [] => []
  | (k, v) :: rest =>
      if String.eqb k name then delete name rest else (k, v) :: delete name rest
  end.

(** [set]: the first entry of that name takes the value and the others of
    that name go; without such an entry, one is appended. *)
Fixpoint set (name value : string) (entries : t) : t :=
  match entries with
  | [] => [(name, value)]
  | (k, v) :: rest =>
      if String.eqb k name then (name, value) :: delete name rest
      else (k, v) :: set name value rest
  end.

(** The entries written by one conditional [set], and by a [forEach] of
    [append]s. *)
Definition single (name : string) (present : bool) (value : string) : t :=
  if present then [(name, value)] else [].

Definition multi (name : string) (values : list string) : t :=
  (fun v => (name, v)) <$> values.

Lemma get_app (name : string) (l1 l2 : t) :
  get name (l1 ++ l2) =
  match get name l1 with Some v => Some v | None => get name l2 end.
Proof.
  induction l1 as [|[k v] l1 IH]; [reflexivity|]. simpl.
  destruct (String.eqb k name); [reflexivity | exact IH].
Qed.

Lemma getAll_app (name : string) (l1 l2 : t) :
  getAll name (l1 ++ l2) = getAll name l1 ++ getAll name l2.
Proof.
  induction l1 as [|[k v] l1 IH]; [reflexivity|]. simpl.
  destruct (String.eqb k name); simpl; by rewrite IH.
Qed.

Lemma set_fresh (name value : string) (entries : t) :
  get name entries = None -> set name value entries = entries ++ [(name, value)].
Proof.
  induction entries as [|[k v] rest IH]; [reflexivity|]. simpl.
  destruct (String.eqb k name); [discriminate|].
  intros H. by rewrite IH.
Qed.

Lemma foldl_append (name : string) (values : list string) :
  forall entries,
    foldl (fun acc v => append name v acc) entries values
    = entries ++ multi name values.
Proof.
  induction values as [|v values IH]; intros entries; simpl.
  - by rewrite app_nil_r.
  - rewrite IH. unfold append. by rewrite <- app_assoc.
Qed.

Lemma get_single (name name' : string) (present : bool) (value : string) :
  get name (single name' present value) =
  if String.eqb name' name && present then Some value else None.
Proof.
  unfold single. destruct present; simpl;
    destruct (String.eqb name' name); reflexivity.
Qed.

Lemma get_multi_other (name name' : string) (values : list string) :
  String.eqb name' name = false -> get name (multi name' values) = None.
Proof.
  intros Hne. induction values as [|v values IH]; [reflexivity|].
  simpl. by rewrite Hne.
Qed.

Lemma getAll_single_other (name name' : string) (present : bool) (value : string) :
  String.eqb name' name = false -> getAll name (single name' present value) = [].
Proof. intros Hne. unfold single. destruct present; simpl; by rewrite ?Hne. Qed.

Lemma getAll_multi (name name' : string) (values : list string) :
  getAll name (multi name' values) = if String.eqb name' name then values else [].
Proof.
  induction values as [|v values IH]; simpl.
  - by destruct (String.eqb name' name).
  - destruct (String.eqb name' name); [by rewrite IH | exact IH].
Qed.

End URLSearchParams.

Module JsNumber.

Import Decimal Stdlib.Strings.Ascii.

(** [n.toString()] for an integer [n]. *)
Definition toString (n : Z) : string :=
  DecimalString.NilEmpty.string_of_int (Z.to_int n).

(** The white space that [parseInt] skips, as far as it is ASCII. *)
Definition is_space (c : Ascii.ascii) : bool :=
  let n := Ascii.N_of_ascii c in
  ((9 <=? n) && (n <=? 13) || (n =? 32))%N.

Fixpoint skip_spaces (s : string) : string :=
  match s with
  | String c rest => if is_space c then skip_spaces rest else s
  | EmptyString => s
  end.

(** The longest prefix of decimal digits. *)
Fixpoint digits_prefix (s : string) : uint :=
  match s with
  | String c rest =>
      match c with
      | "0"%char => D0 (digits_prefix rest)
      | "1"%char => D1 (digits_prefix rest)
      | "2"%char => D2 (digits_prefix rest)
      | "3"%char => D3 (digits_prefix rest)
      | "4"%char => D4 (digits_prefix rest)
      | "5"%char => D5 (digits_prefix rest)
      | "6"%char => D6 (digits_prefix rest)
      | "7"%char => D7 (digits_prefix rest)
      | "8"%char => D8 (digits_prefix rest)
      | "9"%char => D9 (digits_prefix rest)
      | _ => Nil
      end
  | EmptyString => Nil
  end.

Definition digits_value (s : string) : option Z :=
  match digits_prefix s with
  | Nil => None
  | d => Some (Z.of_uint d)
  end.

(** [parseInt(s, 10)], with [None] for [NaN]: leading white space and one
    sign are skipped, the digits that follow are read, and anything after
    them is ignored. *)
Definition parseInt (s : string) : option Z :=
  match skip_spaces s with
  | String "-" rest => Z.opp <$> digits_value rest
  | String "+" rest => digits_value rest
  | body => digits_value body
  end.

Example parseInt_prefix : parseInt "  12px" = Some 12.
Proof. reflexivity. Qed.

Example parseInt_NaN : parseInt "page" = None.
Proof. reflexivity. Qed.

Lemma digits_prefix_string_of_uint (d : uint) :
  digits_prefix (DecimalString.NilEmpty.string_of_uint d) = d.
Proof. induction d; simpl; by rewrite ?IHd. Qed.

Lemma parseInt_digits (d : uint) :
  d <> Nil ->
  parseInt (DecimalString.NilEmpty.string_of_uint d) = Some (Z.of_uint d).
Proof.
  intros Hd. destruct d; [contradiction|..]; unfold parseInt, digits_value;
    simpl; rewrite digits_prefix_string_of_uint; reflexivity.
Qed.

Lemma toString_positive (p : positive) :
  parseInt (toString (Zpos p)) = Some (Zpos p)
  /\ toString (Zpos p) <> EmptyString.
Proof.
  unfold toString. simpl.
  pose proof (DecimalPos.Unsigned.to_uint_nonnil p) as Hnil.
  split.
  - rewrite parseInt_digits by exact Hnil.
    unfold Z.of_uint. by rewrite DecimalPos.Unsigned.of_to.
  - destruct (Pos.to_uint p); [contradiction|..]; discriminate.
Qed.

End JsNumber.

Module PolicyPage.

Import URLSearchParams.

Abbreviation SearchFilters := PolicySearchStore.SearchFilters.
Abbreviation mkSearchFilters := PolicySearchStore.mkSearchFilters.

(** The four variables of the page component.  [currentPage] is a number:
    an integer, or [None] for [NaN] (which [parseInt] can give).  Integers
    stand for themselves up to [MAX_SAFE_INTEGER]. *)
Record PageState : Type := mkPageState {
  query : string;
  filters : SearchFilters;
  currentPage : option Z;
  sort : string
}.

Definition MAX_SAFE_INTEGER : Z := 2 ^ 53 - 1.

(** [s || fallback] for a string [s] that may be [null] or [undefined]. *)
Definition or_else (s : option string) (fallback : string) : string :=
  match s with
  | Some v => if String.eqb v EmptyString then fallback else v
  | None => fallback
  end.

(** The truth value of a string that may be [undefined], and of
    [list?.length]. *)
Definition truthy (s : option string) : bool :=
  match s with
  | Some v => negb (String.eqb v EmptyString)
  | None => false
  end.

Definition has_length (l : option (list string)) : bool :=
  match l with
  | Some (_ :: _) => true
  | _ => false
  end.

(** [load] of the route, on the search parameters of the URL; the page
    component starts from what it returns. *)
Definition load (searchParams : URLSearchParams.t) : PageState :=
  let query := or_else (get "q" searchParams) EmptyString in
  let municipalities := getAll "municipality" searchParams in
  let categories := getAll "category" searchParams in
  let documentType := or_else (get "document_type" searchParams) EmptyString in
  let dateFrom := or_else (get "date_from" searchParams) EmptyString in
  let dateTo := or_else (get "date_to" searchParams) EmptyString in
  let page := JsNumber.parseInt (or_else (get "page" searchParams) "1") in
  let sort := or_else (get "sort" searchParams) "relevance" in
  {| query := query;
     filters := mkSearchFilters None (Some municipalities) (Some categories)
                  (Some dateFrom) (Some dateTo) (Some documentType);
     currentPage := page;
     sort := sort |}.

(** [updateURL]: the search parameters of the URL handed to [goto] (none:
    the bare [/policy]). *)
Definition updateURL (st : PageState) : URLSearchParams.t :=
  let f := filters st in
  let params : URLSearchParams.t := [] in
  let params := if truthy (Some (query st)) then set "q" (query st) params else params in
  let params :=
    if has_length (PolicySearchStore.municipalities f)
    then foldl (fun acc m => append "municipality" m acc) params
           (default [] (PolicySearchStore.municipalities f))
    else params in
  let params :=
    if has_length (PolicySearchStore.categories f)
    then foldl (fun acc c => append "category" c acc) params
           (default [] (PolicySearchStore.categories f))
    else params in
  let params :=
    if truthy (PolicySearchStore.document_type f)
    then set "document_type" (default EmptyString (PolicySearchStore.document_type f)) params
    else params in
  let params :=
    if truthy (PolicySearchStore.date_from f)
    then set "date_from" (default EmptyString (PolicySearchStore.date_from f)) params
    else params in
  let params :=
    if truthy (PolicySearchStore.date_to f)
    then set "date_to" (default EmptyString (PolicySearchStore.date_to f)) params
    else params in
  let params :=
    match currentPage st with
    | Some n => if n >? 1 then set "page" (JsNumber.toString n) params else params
    | None => params
    end in
  let params :=
    if negb (String.eqb (sort st) "relevance") then set "sort" (sort st) params
    else params in
  params.

(** [event.detail] of the [search] and [change] events. *)
Record search_detail : Type := mkSearchDetail {
  detail_query : string;
  detail_filters : option SearchFilters
}.

Section Handlers.

Variable searchPolicyDocuments :
  PolicySearchStore.SearchRequest ->
  PolicySearchStore.settled PolicySearchStore.SearchResponse.

(** What a handler leaves behind: the component's variables, the URL it
    went to, and the store after the awaited search. *)
Record handled : Type := mkHandled {
  state : PageState;
  url : URLSearchParams.t;
  store : PolicySearchStore.SearchState
}.

Definition run (st : PageState) (page : Z) (s : PolicySearchStore.SearchState)
    : handled :=
  {| state := st;
     url := updateURL st;
     store := snd (PolicySearchStore.search searchPolicyDocuments
                     (query st) (Some (filters st)) (Some page) (Some (sort st)) s) |}.

Definition handleSearch (detail : search_detail) (st : PageState)
    (s : PolicySearchStore.SearchState) : handled :=
  let st := {| query := detail_query detail;
               filters := default PolicySearchStore.no_filters (detail_filters detail);
               currentPage := Some 1;
               sort := sort st |} in
  run st 1 s.

Definition handlePageChange (page : Z) (st : PageState)
    (s : PolicySearchStore.SearchState) : handled :=
  let st := {| query := query st; filters := filters st;
               currentPage := Some page; sort := sort st |} in
  run st page s.

Definition handleSortChange (sort_ : string) (st : PageState)
    (s : PolicySearchStore.SearchState) : handled :=
  let st := {| query := query st; filters := filters st;
               currentPage := Some 1; sort := sort_ |} in
  run st 1 s.

End Handlers.

(** The entries [updateURL] writes, one group per parameter. *)
Definition entries (st : PageState) : URLSearchParams.t :=
  let f := filters st in
  single "q" (truthy (Some (query st))) (query st)
  ++ multi "municipality" (default [] (PolicySearchStore.municipalities f))
  ++ multi "category" (default [] (PolicySearchStore.categories f))
  ++ single "document_type" (truthy (PolicySearchStore.document_type f))
       (default EmptyString (PolicySearchStore.document_type f))
  ++ single "date_from" (truthy (PolicySearchStore.date_from f))
       (default EmptyString (PolicySearchStore.date_from f))
  ++ single "date_to" (truthy (PolicySearchStore.date_to f))
       (default EmptyString (PolicySearchStore.date_to f))
  ++ single "page" (match currentPage st with Some n => n >? 1 | None => false end)
       (match currentPage st with Some n => JsNumber.toString n | None => EmptyString end)
  ++ single "sort" (negb (String.eqb (sort st) "relevance")) (sort st).

Ltac lookups :=
  repeat first
    [ rewrite get_app | rewrite getAll_app
    | rewrite get_single
    | rewrite get_multi_other by reflexivity
    | rewrite getAll_single_other by reflexivity
    | rewrite getAll_multi ];
  cbn [String.eqb Ascii.eqb Bool.eqb andb app].

Lemma has_length_multi (name : string) (l : option (list string)) :
  (if has_length l then multi name (default [] l) else []) = multi name (default [] l).
Proof. destruct l as [[|x l]|]; reflexivity. Qed.

Lemma set_single (name value : string) (present : bool) (params : URLSearchParams.t) :
  get name params = None ->
  (if present then set name value params else params)
  = params ++ single name present value.
Proof.
  intros Hfresh. destruct present; simpl.
  - by apply set_fresh.
  - by rewrite app_nil_r.
Qed.

Lemma updateURL_entries (st : PageState) : updateURL st = entries st.
Proof.
  unfold updateURL, entries.
  destruct st as [q [src ms cs df dt ty] p s].
  cbn [query filters currentPage sort PolicySearchStore.municipalities
       PolicySearchStore.categories PolicySearchStore.document_type
       PolicySearchStore.date_from PolicySearchStore.date_to].
  rewrite (set_single "q" q (truthy (Some q)) []) by reflexivity.
  rewrite app_nil_l.
  set (e1 := single "q" _ q).
  assert (Hm : (if has_length ms
                then foldl (fun acc m => append "municipality" m acc) e1 (default [] ms)
                else e1) = e1 ++ multi "municipality" (default [] ms)).
  { destruct ms as [[|m ms]|]; simpl; rewrite ?app_nil_r; try reflexivity.
    rewrite foldl_append. unfold append. by rewrite <- app_assoc. }
  rewrite Hm. clear Hm.
  set (e2 := e1 ++ multi "municipality" _).
  assert (Hc : (if has_length cs
                then foldl (fun acc c => append "category" c acc) e2 (default [] cs)
                else e2) = e2 ++ multi "category" (default [] cs)).
  { destruct cs as [[|c cs]|]; simpl; rewrite ?app_nil_r; try reflexivity.
    rewrite foldl_append. unfold append. by rewrite <- app_assoc. }
  rewrite Hc. clear Hc.
  set (e3 := e2 ++ multi "category" _).
  rewrite (set_single "document_type" (default EmptyString ty) (truthy ty) e3)
    by (subst e3 e2 e1; lookups; reflexivity).
  set (e4 := e3 ++ single "document_type" _ _).
  rewrite (set_single "date_from" (default EmptyString df) (truthy df) e4)
    by (subst e4 e3 e2 e1; lookups; by destruct (truthy ty)).
  set (e5 := e4 ++ single "date_from" _ _).
  rewrite (set_single "date_to" (default EmptyString dt) (truthy dt) e5)
    by (subst e5 e4 e3 e2 e1; lookups; by destruct (truthy ty), (truthy df)).
  set (e6 := e5 ++ single "date_to" _ _).
  assert (Hp : match p with
               | Some n => if n >? 1 then set "page" (JsNumber.toString n) e6 else e6
               | None => e6
               end
               = e6 ++ single "page" (match p with Some n => n >? 1 | None => false end)
                         (match p with Some n => JsNumber.toString n | None => EmptyString end)).
  { destruct p as [n|]; [|by rewrite app_nil_r].
    apply set_single. subst e6 e5 e4 e3 e2 e1; lookups.
    by destruct (truthy ty), (truthy df), (truthy dt). }
  rewrite Hp. clear Hp.
  set (e7 := e6 ++ single "page" _ _).
  rewrite (set_single "sort" s (negb (String.eqb s "relevance")) e7).
  - subst e7 e6 e5 e4 e3 e2 e1. by rewrite <- !app_assoc.
  - subst e7 e6 e5 e4 e3 e2 e1; lookups.
    destruct p as [n|]; [destruct (n >? 1)|];
      by destruct (truthy ty), (truthy df), (truthy dt).
Qed.

Lemma search_sets api q f p so s :
  let s' := snd (PolicySearchStore.search api q (Some f) (Some p) (Some so) s) in
  PolicySearchStore.query s' = q
  /\ PolicySearchStore.filters s' = f
  /\ PolicySearchStore.page s' = p.
Proof.
  unfold PolicySearchStore.search. simpl.
  destruct (api _); simpl; auto.
Qed.

Lemma or_else_truthy (present : bool) (v fallback : string) :
  (present = true -> v <> EmptyString) ->
  or_else (if present then Some v else None) fallback
  = if present then v else fallback.
Proof.
  intros Hv. destruct present; [|reflexivity]. simpl.
  destruct (String.eqb_spec v EmptyString) as [->|]; [|reflexivity].
  by destruct Hv.
Qed.

Lemma get_present (name : string) (l : URLSearchParams.t) :
  match get name [] with Some v => Some v | None => get name l end = get name l.
Proof. reflexivity. Qed.

Lemma or_else_field (s : option string) :
  or_else (if truthy s then Some (default EmptyString s) else None) EmptyString
  = default EmptyString s.
Proof.
  destruct s as [v|]; [|reflexivity]. simpl.
  destruct (String.eqb_spec v EmptyString) as [->|Hne]; [reflexivity|]. simpl.
  by destruct (String.eqb_spec v EmptyString).
Qed.

(** X24. A reload restores the page.  [load], run on the URL that
    [updateURL] wrote for the page's variables, returns the same query, the
    same selections of municipalities and categories in the same order, the
    same type and date filters, the same page number (1 for a page below 1)
    and the same sort order (relevance for an empty one); an absent filter
    field comes back empty, and a [sources] filter is not restored. *)
Theorem reload_restores (st : PageState) (n : Z) :
  currentPage st = Some n ->
  n <= MAX_SAFE_INTEGER ->
  let f := filters st in
  let back := load (updateURL st) in
  query back = query st
  /\ currentPage back = Some (Z.max 1 n)
  /\ sort back = (if String.eqb (sort st) EmptyString then "relevance" else sort st)
  /\ PolicySearchStore.municipalities (filters back)
     = Some (default [] (PolicySearchStore.municipalities f))
  /\ PolicySearchStore.categories (filters back)
     = Some (default [] (PolicySearchStore.categories f))
  /\ PolicySearchStore.document_type (filters back)
     = Some (default EmptyString (PolicySearchStore.document_type f))
  /\ PolicySearchStore.date_from (filters back)
     = Some (default EmptyString (PolicySearchStore.date_from f))
  /\ PolicySearchStore.date_to (filters back)
     = Some (default EmptyString (PolicySearchStore.date_to f))
  /\ PolicySearchStore.sources (filters back) = None.
Proof.
  intros Hpage Hsafe f back. subst f back.
  rewrite updateURL_entries. unfold entries, load.
  destruct st as [q [src ms cs df dt ty] p s].
  cbn [query filters currentPage sort PolicySearchStore.municipalities
       PolicySearchStore.categories PolicySearchStore.document_type
       PolicySearchStore.date_from PolicySearchStore.date_to
       PolicySearchStore.sources] in *.
  subst p.
  lookups.
  assert (Heta : forall o : option string,
             match o with Some v => Some v | None => None end = o)
    by (by intros [v|]).
  rewrite !Heta, !app_nil_r, !or_else_field.
  repeat split.
  - destruct (n >? 1) eqn:Hn.
    + destruct n as [|k|k]; try discriminate.
      destruct (JsNumber.toString_positive k) as [Hparse Hne].
      unfold or_else.
      destruct (String.eqb_spec (JsNumber.toString (Z.pos k)) EmptyString);
        [contradiction|].
      rewrite Hparse. f_equal. lia.
    + change (JsNumber.parseInt (or_else None "1")) with (Some 1).
      f_equal. lia.
  - destruct (String.eqb_spec s "relevance") as [->|Hs]; [reflexivity|]. simpl.
    by destruct (String.eqb s EmptyString).
Qed.

Lemma reload_restores_witness :
  let st := {| query := "afval";
               filters := mkSearchFilters None (Some ["Utrecht"; "Zeist"]) None
                            None None (Some "verordening");
               currentPage := Some 3; sort := "date" |} in
  query (load (updateURL st)) = "afval"
  /\ currentPage (load (updateURL st)) = Some 3
  /\ PolicySearchStore.municipalities (filters (load (updateURL st)))
     = Some ["Utrecht"; "Zeist"].
Proof.
  intros st.
  destruct (reload_restores st 3) as (Hq & Hp & _ & Hm & _);
    [reflexivity | unfold MAX_SAFE_INTEGER; lia |].
  split; [exact Hq | split; [exact Hp | exact Hm]].
Defined.

End PolicyPage.

(** The search bar component. *)
Module SearchBar.

Section Component.

(** [String.prototype.trim] *)
Variable trim : string -> string.

(** [handleSubmit]: the detail of the dispatched [search] event, if any. *)
Definition handleSubmit (query : string) : option PolicyPage.search_detail :=
  if (0 <? Z.of_nat (String.length (trim query)))
  then Some {| PolicyPage.detail_query := trim query;
               PolicyPage.detail_filters := None |}
  else None.

End Component.

End SearchBar.

(** The filter panel component. *)
Module SearchFiltersPanel.

Import PolicyPage.

Record panel : Type := mkPanel {
  selectedMunicipalities : list string;
  selectedCategories : list string;
  documentType : string;
  dateFrom : string;
  dateTo : string
}.

(** The panel's variables as initialised from the [filters] property. *)
Definition mount (filters : SearchFilters) : panel :=
  {| selectedMunicipalities := default [] (PolicySearchStore.municipalities filters);
     selectedCategories := default [] (PolicySearchStore.categories filters);
     documentType := or_else (PolicySearchStore.document_type filters) EmptyString;
     dateFrom := or_else (PolicySearchStore.date_from filters) EmptyString;
     dateTo := or_else (PolicySearchStore.date_to filters) EmptyString |}.

(** [applyFilters]: the detail of the dispatched [change] event. *)
Definition applyFilters (p : panel) : search_detail :=
  {| detail_query := EmptyString;
     detail_filters :=
       Some (mkSearchFilters None
               (Some (selectedMunicipalities p)) (Some (selectedCategories p))
               (Some (dateFrom p)) (Some (dateTo p)) (Some (documentType p))) |}.

Definition clearFilters (p : panel) : panel * search_detail :=
  let p := {| selectedMunicipalities := []; selectedCategories := [];
              documentType := EmptyString; dateFrom := EmptyString;
              dateTo := EmptyString |} in
  (p, applyFilters p).

Definition toggleMunicipality (municipality : string) (p : panel)
    : panel * search_detail :=
  let selected :=
    if bool_decide (municipality ∈ selectedMunicipalities p)
    then filter (fun m => m <> municipality) (selectedMunicipalities p)
    else selectedMunicipalities p ++ [municipality] in
  let p := {| selectedMunicipalities := selected;
              selectedCategories := selectedCategories p;
              documentType := documentType p; dateFrom := dateFrom p;
              dateTo := dateTo p |} in
  (p, applyFilters p).

Definition toggleCategory (category : string) (p : panel)
    : panel * search_detail :=
  let selected :=
    if bool_decide (category ∈ selectedCategories p)
    then filter (fun c => c <> category) (selectedCategories p)
    else selectedCategories p ++ [category] in
  let p := {| selectedMunicipalities := selectedMunicipalities p;
              selectedCategories := selected;
              documentType := documentType p; dateFrom := dateFrom p;
              dateTo := dateTo p |} in
  (p, applyFilters p).

Lemma toggled (x : string) (l : list string) :
  let l' := if bool_decide (x ∈ l) then filter (fun y => y <> x) l else l ++ [x] in
  (x ∈ l' <-> x ∉ l)
  /\ (forall y, y <> x -> (y ∈ l' <-> y ∈ l))
  /\ (NoDup l -> NoDup l').
Proof.
  simpl. destruct (bool_decide_reflect (x ∈ l)) as [Hin|Hout].
  - split; [|split].
    + rewrite list_elem_of_filter. tauto.
    + intros y Hy. rewrite list_elem_of_filter. tauto.
    + apply NoDup_filter.
  - split; [|split].
    + rewrite elem_of_app, list_elem_of_singleton. tauto.
    + intros y Hy. rewrite elem_of_app, list_elem_of_singleton. tauto.
    + intros Hnd. apply NoDup_app. split; [exact Hnd|]. split.
      * intros y Hy Hy'. apply list_elem_of_singleton in Hy'. by subst.
      * apply NoDup_singleton.
Qed.

(** X25. A click on a municipality or a category flips exactly that entry of the
    selection: it is selected afterwards iff it was not before, every other
    entry and every other field of the panel is as before, a selection
    without duplicates stays so, and the dispatched event carries the new
    selection with an empty query. *)
Theorem toggle_flips_one (name : string) (p : panel) :
  let pm := fst (toggleMunicipality name p) in
  let em := snd (toggleMunicipality name p) in
  let pc := fst (toggleCategory name p) in
  let ec := snd (toggleCategory name p) in
  ((name ∈ selectedMunicipalities pm <-> name ∉ selectedMunicipalities p)
   /\ (forall other, other <> name ->
         (other ∈ selectedMunicipalities pm <-> other ∈ selectedMunicipalities p))
   /\ (NoDup (selectedMunicipalities p) -> NoDup (selectedMunicipalities pm))
   /\ selectedCategories pm = selectedCategories p
   /\ em = applyFilters pm)
  /\ ((name ∈ selectedCategories pc <-> name ∉ selectedCategories p)
      /\ (forall other, other <> name ->
            (other ∈ selectedCategories pc <-> other ∈ selectedCategories p))
      /\ (NoDup (selectedCategories p) -> NoDup (selectedCategories pc))
      /\ selectedMunicipalities pc = selectedMunicipalities p
      /\ ec = applyFilters pc)
  /\ documentType pm = documentType p /\ documentType pc = documentType p
  /\ dateFrom pm = dateFrom p /\ dateFrom pc = dateFrom p
  /\ dateTo pm = dateTo p /\ dateTo pc = dateTo p
  /\ detail_query em = EmptyString /\ detail_query ec = EmptyString.
Proof.
  unfold toggleMunicipality, toggleCategory.
  cbn [fst snd selectedMunicipalities selectedCategories documentType dateFrom dateTo].
  destruct (toggled name (selectedMunicipalities p)) as (Hm1 & Hm2 & Hm3).
  destruct (toggled name (selectedCategories p)) as (Hc1 & Hc2 & Hc3).
  simpl in Hm1, Hm2, Hm3, Hc1, Hc2, Hc3.
  repeat split; try reflexivity; try tauto; try apply Hm2; try apply Hc2; auto;
    try (intros; apply Hm2; tauto); try (intros; apply Hc2; tauto).
Qed.

Lemma toggle_flips_one_witness :
  let p := {| selectedMunicipalities := ["Zeist"]; selectedCategories := [];
              documentType := EmptyString; dateFrom := EmptyString;
              dateTo := EmptyString |} in
  "Utrecht" ∈ selectedMunicipalities (fst (toggleMunicipality "Utrecht" p))
  /\ NoDup (selectedMunicipalities (fst (toggleMunicipality "Utrecht" p))).
Proof.
  intros p.
  destruct (toggle_flips_one "Utrecht" p) as ((Hflip & _ & Hnodup & _) & _).
  split.
  - apply Hflip. subst p. simpl. intros Hin.
    apply list_elem_of_singleton in Hin. discriminate.
  - apply Hnodup. subst p. simpl. apply NoDup_singleton.
Defined.

End SearchFiltersPanel.

(** The page's handlers on the events of its components. *)
Module PolicyPageEvents.

Import URLSearchParams PolicyPage SearchFiltersPanel.

(** X26. A change of the filter panel replaces the query.  Whatever the query of
    the page was, after [handleSearch] on an event of [applyFilters] the
    query is empty and the page is 1: the URL has no [q] and no [page]
    parameter, lists the panel's municipalities and categories and carries
    its type and dates where they are set, and the store searched for the
    empty query with exactly the panel's filters. *)
Theorem filter_change_drops_query api (p : panel) (st : PageState)
    (s : PolicySearchStore.SearchState) :
  let h := handleSearch api (applyFilters p) st s in
  query (state h) = EmptyString
  /\ currentPage (state h) = Some 1
  /\ get "q" (url h) = None
  /\ get "page" (url h) = None
  /\ getAll "municipality" (url h) = selectedMunicipalities p
  /\ getAll "category" (url h) = selectedCategories p
  /\ get "document_type" (url h)
     = (if String.eqb (documentType p) EmptyString then None
        else Some (documentType p))
  /\ get "date_from" (url h)
     = (if String.eqb (dateFrom p) EmptyString then None else Some (dateFrom p))
  /\ get "date_to" (url h)
     = (if String.eqb (dateTo p) EmptyString then None else Some (dateTo p))
  /\ filters (state h)
     = mkSearchFilters None (Some (selectedMunicipalities p))
         (Some (selectedCategories p)) (Some (dateFrom p)) (Some (dateTo p))
         (Some (documentType p))
  /\ PolicySearchStore.query (store h) = EmptyString
  /\ PolicySearchStore.page (store h) = 1
  /\ PolicySearchStore.filters (store h)
     = mkSearchFilters None (Some (selectedMunicipalities p))
         (Some (selectedCategories p)) (Some (dateFrom p)) (Some (dateTo p))
         (Some (documentType p)).
Proof.
  intros h. subst h. unfold handleSearch, run.
  cbn [state url store].
  match goal with
  | |- context [PolicySearchStore.search api ?q (Some ?f) (Some ?n) (Some ?so) s] =>
      destruct (search_sets api q f n so s) as (Hq & Hf & Hp)
  end.
  cbn zeta in Hq, Hf, Hp.
  rewrite updateURL_entries. unfold entries.
  cbn [query filters currentPage sort applyFilters detail_query detail_filters
       default PolicySearchStore.municipalities PolicySearchStore.categories
       PolicySearchStore.document_type PolicySearchStore.date_from
       PolicySearchStore.date_to] in *.
  lookups.
  repeat split.
  - apply app_nil_r.
  - apply app_nil_r.
  - simpl. by destruct (String.eqb (documentType p) EmptyString).
  - simpl. by destruct (String.eqb (dateFrom p) EmptyString).
  - simpl. by destruct (String.eqb (dateTo p) EmptyString).
  - exact Hq.
  - exact Hp.
  - exact Hf.
Qed.

(** X27. A submitted query replaces the filters.  When the search bar dispatches
    (the trimmed query is not empty), [handleSearch] leaves the page with no
    filter at all, whatever was selected: the URL consists of the [q]
    parameter and, for a sort order other than relevance, the [sort]
    parameter, and the store searched with the empty filter object. *)
Theorem query_submit_drops_filters api (trim : string -> string) (input : string)
    (detail : search_detail) (st : PageState) (s : PolicySearchStore.SearchState) :
  SearchBar.handleSubmit trim input = Some detail ->
  let h := handleSearch api detail st s in
  query (state h) = trim input
  /\ trim input <> EmptyString
  /\ filters (state h) = PolicySearchStore.no_filters
  /\ currentPage (state h) = Some 1
  /\ url h = ("q", trim input)
             :: single "sort" (negb (String.eqb (sort st) "relevance")) (sort st)
  /\ PolicySearchStore.query (store h) = trim input
  /\ PolicySearchStore.filters (store h) = PolicySearchStore.no_filters
  /\ PolicySearchStore.page (store h) = 1.
Proof.
  unfold SearchBar.handleSubmit.
  destruct (0 <? Z.of_nat (String.length (trim input))) eqn:Hlen; [|discriminate].
  intros [= <-]. unfold handleSearch, run.
  cbn [state url store detail_query detail_filters default].
  assert (Hne : trim input <> EmptyString).
  { intros Heq. rewrite Heq in Hlen. discriminate. }
  match goal with
  | |- context [PolicySearchStore.search api ?q (Some ?f) (Some ?n) (Some ?so) s] =>
      destruct (search_sets api q f n so s) as (Hq & Hf & Hp)
  end.
  cbn zeta in Hq, Hf, Hp.
  rewrite updateURL_entries. unfold entries.
  cbn [query filters currentPage sort PolicySearchStore.no_filters
       default PolicySearchStore.municipalities PolicySearchStore.categories
       PolicySearchStore.document_type PolicySearchStore.date_from
       PolicySearchStore.date_to truthy multi single fmap list_fmap app
       Z.gtb Z.compare Pos.compare Pos.compare_cont] in *.
  repeat split; try assumption.
  destruct (String.eqb_spec (trim input) EmptyString); [contradiction|].
  reflexivity.
Qed.

Lemma query_submit_drops_filters_witness :
  let st := {| query := EmptyString;
               filters := mkSearchFilters None (Some ["Utrecht"]) None None None None;
               currentPage := Some 4; sort := "relevance" |} in
  url (handleSearch (fun _ => PolicySearchStore.Rejected (PolicySearchStore.mkCaught None))
         {| detail_query := "afval"; detail_filters := None |} st
         PolicySearchStore.initialState)
  = [("q", "afval")].
Proof.
  intros st.
  destruct (query_submit_drops_filters
              (fun _ => PolicySearchStore.Rejected (PolicySearchStore.mkCaught None))
              (fun q => q) "afval"
              {| detail_query := "afval"; detail_filters := None |} st
              PolicySearchStore.initialState) as (_ & _ & _ & _ & Hurl & _);
    [reflexivity|].
  exact Hurl.
Defined.

End PolicyPageEvents.
